(** * ALX Polly: the poll server actions, embedded and verified

    Shallow embedding of [src/app/lib/actions/poll-actions.ts]: the two pure
    helpers ([sanitizeString], [validatePollInput]) and the server actions
    [createPoll], [adminDeletePoll], [getUserPolls], [submitVote],
    [deletePoll] and [updatePoll], written as programs over the three
    collaborators they talk to (the auth session, the table backend and the
    cache invalidation hook). *)

From Stdlib Require Import ZArith NArith Ascii String DecimalString DecimalNat.
From stdpp Require Import base decidable option list sorting countable gmap.

Local Open Scope N_scope.

(** ** JavaScript strings

    A JavaScript string is a sequence of UTF-16 code units; [.length], [trim]
    and a regular expression without the [u] flag all work unit by unit. *)

Abbreviation jsstring := (list N).

Definition js (s : string) : jsstring :=
  N_of_ascii <$> list_ascii_of_string s.

(** [Number.prototype.toString] on a non-negative integer (the [index + 1]
    of a template literal): its decimal digits. *)
Definition Number_toString (n : nat) : jsstring :=
  js (NilEmpty.string_of_uint (Nat.to_uint n)).

(** ECMAScript WhiteSpace and LineTerminator code points, the ones
    [String.prototype.trim] strips: TAB, LF, VT, FF, CR, SP, NBSP, the
    Unicode Zs category, LS, PS and the BOM. *)
Definition is_line_terminator (c : N) : bool :=
  (c =? 0x0A) || (c =? 0x0D) || (c =? 0x2028) || (c =? 0x2029).

Definition is_white_space (c : N) : bool :=
  (c =? 0x09) || (c =? 0x0B) || (c =? 0x0C) || (c =? 0x20) || (c =? 0xA0)
  || (c =? 0x1680) || ((0x2000 <=? c) && (c <=? 0x200A))
  || (c =? 0x202F) || (c =? 0x205F) || (c =? 0x3000) || (c =? 0xFEFF).

Definition is_trimmable (c : N) : bool :=
  is_white_space c || is_line_terminator c.

Fixpoint trimStart (s : jsstring) : jsstring :=
  match s with
  | c :: s' => if is_trimmable c then trimStart s' else s
  | [] => []
  end.

Definition trimEnd (s : jsstring) : jsstring :=
  reverse (trimStart (reverse s)).

Definition trim (s : jsstring) : jsstring := trimEnd (trimStart s).

(** [Array.prototype.join]. *)
Fixpoint join (sep : jsstring) (l : list jsstring) : jsstring :=
  match l with
  | [] => []
  | [x] => x
  | x :: l' => x ++ sep ++ join sep l'
  end.

(** ** The regular expression fragment the source uses

    Both patterns are sequences of single-unit classes, a greedy star of a
    class and a lazy star of a class.  [re_exec] is the backtracking matcher
    anchored at the head of its input: it returns the number of code units
    the leftmost-priority match consumes. *)

Inductive ReItem : Type :=
| One (p : N → bool)        (* a class, once *)
| Star (p : N → bool)       (* class*   greedy *)
| StarLazy (p : N → bool).  (* class*?  lazy *)

Fixpoint re_greedy (p : N → bool) (k : jsstring → option nat) (s : jsstring)
  : option nat :=
  match s with
  | c :: s' =>
      if p c then
        match re_greedy p k s' with
        | Some n => Some (S n)
        | None => k s
        end
      else k s
  | [] => k s
  end.

Fixpoint re_lazy (p : N → bool) (k : jsstring → option nat) (s : jsstring)
  : option nat :=
  match k s with
  | Some n => Some n
  | None =>
      match s with
      | c :: s' => if p c then S <$> re_lazy p k s' else None
      | [] => None
      end
  end.

Fixpoint re_exec (pat : list ReItem) : jsstring → option nat :=
  match pat with
  | [] => λ _, Some 0%nat
  | One p :: pat' =>
      λ s, match s with
           | c :: s' => if p c then S <$> re_exec pat' s' else None
           | [] => None
           end
  | Star p :: pat' => re_greedy p (re_exec pat')
  | StarLazy p :: pat' => re_lazy p (re_exec pat')
  end.

(** [s.replace(/pat/g, '')]: scan left to right; where the pattern matches,
    drop the matched units and resume after them; elsewhere keep the unit.
    [skip] counts the units of the current match still to drop. *)
Fixpoint replace_go (pat : list ReItem) (skip : nat) (s : jsstring) : jsstring :=
  match s with
  | [] => []
  | c :: s' =>
      match skip with
      | S k => replace_go pat k s'
      | O =>
          match re_exec pat s with
          | Some (S n) => replace_go pat n s'
          | _ => c :: replace_go pat 0 s'
          end
      end
  end.

Definition replace_all (pat : list ReItem) (s : jsstring) : jsstring :=
  replace_go pat 0 s.

(** Character classes.  Under the [i] flag (no [u]) a pattern letter matches
    exactly its two ASCII cases: Canonicalize never maps a unit >= 128 to one
    below 128. *)
Definition chr (c : N) : N → bool := λ x, x =? c.
Definition not_chr (c : N) : N → bool := λ x, negb (x =? c).
Definition dot : N → bool := λ x, negb (is_line_terminator x).

Definition chr_i (c : N) : N → bool :=
  if (0x61 <=? c) && (c <=? 0x7A) then λ x, (x =? c) || (x =? c - 0x20)
  else if (0x41 <=? c) && (c <=? 0x5A) then λ x, (x =? c) || (x =? c + 0x20)
  else chr c.

Definition lit (s : string) : list ReItem := (λ c, One (chr c)) <$> js s.
Definition lit_i (s : string) : list ReItem := (λ c, One (chr_i c)) <$> js s.

(** /<script[^>]*>.*?<\/script>/gi *)
Definition script_re : list ReItem :=
  lit_i "<script" ++ [Star (not_chr 0x3E)] ++ lit_i ">"
    ++ [StarLazy dot] ++ lit_i "</script>".

(** /<[^>]*>/g *)
Definition tag_re : list ReItem :=
  lit "<" ++ [Star (not_chr 0x3E)] ++ lit ">".

(** ** sanitizeString (poll-actions.ts, l. 37-39) *)
Definition sanitizeString (input : jsstring) : jsstring :=
  replace_all tag_re (replace_all script_re (trim input)).

(** ** validatePollInput (poll-actions.ts, l. 53-80)

    The handlers pass [formData.get("question") as string], which is [null]
    when the field is missing; [None] stands for that [null], which
    [!question] catches together with the empty string. *)

(** [Boolean(s)] on a string: false exactly for the empty string. *)
Definition Boolean (s : jsstring) : bool := negb (bool_decide (s = [])).
Definition falsy (s : jsstring) : bool := negb (Boolean s).

Definition question_errors (question : option jsstring) : list jsstring :=
  match question with
  | None => [js "Question is required"]
  | Some q =>
      if falsy q || (length (trim q) =? 0)%nat then [js "Question is required"]
      else if (500 <? length (trim q))%nat
           then [js "Question must be less than 500 characters"]
           else []
  end.

Definition count_errors (options : list jsstring) : list jsstring :=
  if (length options <? 2)%nat then [js "At least 2 options are required"]
  else if (10 <? length options)%nat then [js "Maximum 10 options allowed"]
  else [].

Definition option_empty_msg (index : nat) : jsstring :=
  js "Option " ++ Number_toString (index + 1) ++ js " cannot be empty".

Definition option_long_msg (index : nat) : jsstring :=
  js "Option " ++ Number_toString (index + 1)
    ++ js " must be less than 200 characters".

(** The body of the [forEach] callback: what one option pushes. *)
Definition option_errors (index : nat) (option : jsstring) : list jsstring :=
  if falsy option || (length (trim option) =? 0)%nat then [option_empty_msg index]
  else if (200 <? length (trim option))%nat then [option_long_msg index]
  else [].

Definition validatePollInput (question : option jsstring) (options : list jsstring)
  : list jsstring :=
  question_errors question
    ++ count_errors options
    ++ mjoin (imap option_errors options).

(** ** Data model: the rows of the two tables and the identity *)

Record Poll : Type := mkPoll {
  poll_id : jsstring;
  poll_user_id : jsstring;
  poll_question : jsstring;
  poll_options : list jsstring;
  poll_created_at : Z            (* the timestamp, as the backend orders it *)
}.

Record Vote : Type := mkVote {
  vote_poll_id : jsstring;
  vote_user_id : option jsstring;   (* [None] is the SQL null of an anonymous vote *)
  vote_option_index : Z
}.

Inductive JsValue : Type :=
| JNull
| JBool (b : bool)
| JNumber (z : Z)
| JString (s : jsstring).

Record User : Type := mkUser {
  user_id : jsstring;
  user_metadata : option (gmap jsstring JsValue)
}.

(** [{ data: { user }, error }] of [supabase.auth.getUser()]; the error is
    kept as its [message]. *)
Record AuthResponse : Type := mkAuth {
  auth_user : option User;
  auth_error : option jsstring
}.

(** ** The backend query interface

    What a handler sends: one table operation with the conjunction of its
    [.eq(column, value)] filters. *)

Inductive Column : Type := col_id | col_user_id.

Inductive Request : Type :=
| InsertPoll (user_id question : jsstring) (options : list jsstring)
| DeletePolls (filters : list (Column * jsstring))
| UpdatePolls (question : jsstring) (options : list jsstring)
              (filters : list (Column * jsstring))
| SelectPollsNewestFirst (filters : list (Column * jsstring))
| InsertVote (v : Vote).

(** [{ data, error }] of a query; the error is kept as its [message]. *)
Record Response : Type := mkResponse {
  data : option (list Poll);
  db_error : option jsstring
}.

Definition column_of (c : Column) (p : Poll) : jsstring :=
  match c with
  | col_id => poll_id p
  | col_user_id => poll_user_id p
  end.

Definition row_matches (filters : list (Column * jsstring)) (p : Poll) : bool :=
  forallb (λ f, bool_decide (column_of f.1 p = f.2)) filters.

(** [.order("created_at", { ascending: false })] *)
Definition newest_first (p q : Poll) : Prop :=
  (poll_created_at q ≤ poll_created_at p)%Z.

#[global] Instance newest_first_dec : RelDecision newest_first.
Proof. intros p q. unfold newest_first. apply _. Defined.

(** The world a handler runs in: the session, the two tables, the errors the
    backend reports (which requests it refuses, and with what message), and
    the defaults the backend fills into a new poll row. *)
Record World : Type := mkWorld {
  w_auth : AuthResponse;
  w_polls : list Poll;
  w_votes : list Vote;
  w_fault : Request → option jsstring;
  w_fresh_id : jsstring;
  w_now : Z
}.

Definition set_polls (w : World) (ps : list Poll) : World :=
  mkWorld (w_auth w) ps (w_votes w) (w_fault w) (w_fresh_id w) (w_now w).

Definition set_votes (w : World) (vs : list Vote) : World :=
  mkWorld (w_auth w) (w_polls w) vs (w_fault w) (w_fresh_id w) (w_now w).

Definition update_row (question : jsstring) (options : list jsstring) (p : Poll)
  : Poll :=
  mkPoll (poll_id p) (poll_user_id p) question options (poll_created_at p).

(** Modelled from the spec: the table operations of the external backend
    (section 6: insert row, select rows by filter predicate and ordering,
    update rows matching a filter, delete rows matching a filter), which are
    no code of this repository.  A new poll row gets the backend's defaults
    for its identifier and timestamp; a refused request leaves the tables as
    they were. *)
Definition backend (w : World) (r : Request) : Response * World :=
  match w_fault w r with
  | Some e => (mkResponse None (Some e), w)
  | None =>
      match r with
      | InsertPoll u q o =>
          (mkResponse None None,
           set_polls w (w_polls w ++ [mkPoll (w_fresh_id w) u q o (w_now w)]))
      | DeletePolls f =>
          (mkResponse None None,
           set_polls w (filter (λ p, ¬ row_matches f p) (w_polls w)))
      | UpdatePolls q o f =>
          (mkResponse None None,
           set_polls w ((λ p, if row_matches f p then update_row q o p else p)
                          <$> w_polls w))
      | SelectPollsNewestFirst f =>
          (mkResponse
             (Some (merge_sort newest_first (filter (λ p, row_matches f p) (w_polls w))))
             None, w)
      | InsertVote v =>
          (mkResponse None None, set_votes w (w_votes w ++ [v]))
      end
  end.

(** ** Handlers as programs over the collaborators *)

Inductive Prog (A : Type) : Type :=
| Ret (a : A)
| GetUser (k : AuthResponse → Prog A)            (* await supabase.auth.getUser() *)
| Query (r : Request) (k : Response → Prog A)    (* await supabase.from(..).. *)
| RevalidatePath (path : jsstring) (k : Prog A). (* revalidatePath(path) *)

Arguments Ret {A} a.
Arguments GetUser {A} k.
Arguments Query {A} r k.
Arguments RevalidatePath {A} path k.

Inductive Event : Type :=
| EvGetUser
| EvQuery (r : Request)
| EvRevalidate (path : jsstring).

Record Outcome (A : Type) : Type := mkOutcome {
  returned : A;
  world_after : World;
  trace : list Event
}.

Arguments mkOutcome {A} _ _ _.
Arguments returned {A} _.
Arguments world_after {A} _.
Arguments trace {A} _.

Definition logged {A} (e : Event) (o : Outcome A) : Outcome A :=
  mkOutcome (returned o) (world_after o) (e :: trace o).

Fixpoint run {A} (p : Prog A) (w : World) : Outcome A :=
  match p with
  | Ret a => mkOutcome a w []
  | GetUser k => logged EvGetUser (run (k (w_auth w)) w)
  | Query r k =>
      let '(resp, w') := backend w r in logged (EvQuery r) (run (k resp) w')
  | RevalidatePath path k => logged (EvRevalidate path) (run k w)
  end.

(** ** The form submission surface

    The two forms submit text fields only, which is what the handlers'
    [as string] casts rely on: a [FormData] is its list of (name, value)
    entries. *)

Abbreviation FormData := (list (jsstring * jsstring)).

Definition formData_getAll (name : jsstring) (fd : FormData) : list jsstring :=
  snd <$> filter (λ e, e.1 = name) fd.

(** [formData.get(name)]: the first value, or [null]. *)
Definition formData_get (name : jsstring) (fd : FormData) : option jsstring :=
  head (formData_getAll name fd).

(** The cast [x as string], applied after validation has ruled [null] out. *)
Definition as_string (v : option jsstring) : jsstring := default [] v.

(** [{ error: string | null }] *)
Record ActionResult : Type := mkResult { error : option jsstring }.

(** [{ polls, error }] *)
Record PollsResult : Type := mkPollsResult {
  polls : list Poll;
  polls_error : option jsstring
}.

Definition rawQuestion_of (formData : FormData) : option jsstring :=
  formData_get (js "question") formData.

(** [formData.getAll("options").filter(Boolean)] *)
Definition rawOptions_of (formData : FormData) : list jsstring :=
  filter (λ o, Boolean o) (formData_getAll (js "options") formData).

(** ** createPoll (l. 100-145) *)
Definition createPoll (formData : FormData) : Prog ActionResult :=
  let rawQuestion := rawQuestion_of formData in
  let rawOptions := rawOptions_of formData in
  let validationErrors := validatePollInput rawQuestion rawOptions in
  if (0 <? length validationErrors)%nat then
    Ret (mkResult (Some (join (js ", ") validationErrors)))
  else
    let question := sanitizeString (as_string rawQuestion) in
    let options := sanitizeString <$> rawOptions in
    GetUser (λ auth,
      match auth_error auth with
      | Some message => Ret (mkResult (Some message))
      | None =>
          match auth_user auth with
          | None => Ret (mkResult (Some (js "You must be logged in to create a poll.")))
          | Some user =>
              Query (InsertPoll (user_id user) question options) (λ resp,
                match db_error resp with
                | Some message => Ret (mkResult (Some message))
                | None => RevalidatePath (js "/polls") (Ret (mkResult None))
                end)
          end
      end).

(** [user.user_metadata?.role === 'admin'] *)
Definition role_of (user : User) : option JsValue :=
  user_metadata user ≫= λ m, m !! js "role".

Definition isAdmin (user : User) : bool :=
  match role_of user with
  | Some (JString s) => bool_decide (s = js "admin")
  | _ => false
  end.

(** ** adminDeletePoll (l. 168-200) *)
Definition adminDeletePoll (id : jsstring) : Prog ActionResult :=
  GetUser (λ auth,
    match auth_error auth with
    | Some message => Ret (mkResult (Some message))
    | None =>
        match auth_user auth with
        | None => Ret (mkResult (Some (js "You must be logged in to delete a poll.")))
        | Some user =>
            if negb (isAdmin user) then
              Ret (mkResult (Some (js "Admin privileges required to delete any poll.")))
            else
              Query (DeletePolls [(col_id, id)]) (λ resp,
                match db_error resp with
                | Some message => Ret (mkResult (Some message))
                | None => RevalidatePath (js "/polls") (Ret (mkResult None))
                end)
        end
    end).

(** ** getUserPolls (l. 216-234); the auth error is not looked at. *)
Definition getUserPolls : Prog PollsResult :=
  GetUser (λ auth,
    match auth_user auth with
    | None => Ret (mkPollsResult [] (Some (js "Not authenticated")))
    | Some user =>
        Query (SelectPollsNewestFirst [(col_user_id, user_id user)]) (λ resp,
          match db_error resp with
          | Some message => Ret (mkPollsResult [] (Some message))
          | None => Ret (mkPollsResult (default [] (data resp)) None)
          end)
    end).

(** ** submitVote (l. 278-301); [user?.id ?? null]. *)
Definition submitVote (pollId : jsstring) (optionIndex : Z) : Prog ActionResult :=
  GetUser (λ auth,
    Query (InsertVote (mkVote pollId (user_id <$> auth_user auth) optionIndex))
      (λ resp,
        match db_error resp with
        | Some message => Ret (mkResult (Some message))
        | None => Ret (mkResult None)
        end)).

(** ** deletePoll (l. 319-346) *)
Definition deletePoll (id : jsstring) : Prog ActionResult :=
  GetUser (λ auth,
    match auth_error auth with
    | Some message => Ret (mkResult (Some message))
    | None =>
        match auth_user auth with
        | None => Ret (mkResult (Some (js "You must be logged in to delete a poll.")))
        | Some user =>
            Query (DeletePolls [(col_id, id); (col_user_id, user_id user)]) (λ resp,
              match db_error resp with
              | Some message => Ret (mkResult (Some message))
              | None => RevalidatePath (js "/polls") (Ret (mkResult None))
              end)
        end
    end).

(** ** updatePoll (l. 364-405) *)
Definition updatePoll (pollId : jsstring) (formData : FormData) : Prog ActionResult :=
  let rawQuestion := rawQuestion_of formData in
  let rawOptions := rawOptions_of formData in
  let validationErrors := validatePollInput rawQuestion rawOptions in
  if (0 <? length validationErrors)%nat then
    Ret (mkResult (Some (join (js ", ") validationErrors)))
  else
    let question := sanitizeString (as_string rawQuestion) in
    let options := sanitizeString <$> rawOptions in
    GetUser (λ auth,
      match auth_error auth with
      | Some message => Ret (mkResult (Some message))
      | None =>
          match auth_user auth with
          | None => Ret (mkResult (Some (js "You must be logged in to update a poll.")))
          | Some user =>
              Query (UpdatePolls question options
                       [(col_id, pollId); (col_user_id, user_id user)]) (λ resp,
                match db_error resp with
                | Some message => Ret (mkResult (Some message))
                | None => Ret (mkResult None)
                end)
          end
      end).

(** ** Vocabulary of the properties *)

(** The caller is authenticated: the session resolves to [user], no error. *)
Definition authenticated (w : World) (user : User) : Prop :=
  w_auth w = mkAuth (Some user) None.

(** No identity: the session resolves to no user (with or without an error). *)
Definition unauthenticated (w : World) : Prop :=
  auth_user (w_auth w) = None.

Definition is_write (r : Request) : bool :=
  match r with
  | SelectPollsNewestFirst _ => false
  | _ => true
  end.

(** The backend requests of a trace, and the writes among them. *)
Definition queries (t : list Event) : list Request :=
  omap (λ e, match e with EvQuery r => Some r | _ => None end) t.

Definition writes (t : list Event) : list Request :=
  filter (λ r, is_write r) (queries t).

(** A write counts as successful when the backend reported no error for it. *)
Definition succeeded (w : World) (r : Request) : Prop := w_fault w r = None.

(** A string made of white space and line terminators only. *)
Definition all_whitespace (s : jsstring) : Prop :=
  Forall (λ c, is_trimmable c) s.

(** The handler answered with an error, sent the backend no write and left
    the tables as they were. *)
Definition fails_closed (w : World) (o : Outcome ActionResult) : Prop :=
  is_Some (error (returned o)) ∧ writes (trace o) = [] ∧ world_after o = w.

(** The steps a trace shows come in the order: resolve the identity, one
    backend request, invalidation of the poll listing. *)
Definition steps_in_order (t : list Event) : Prop :=
  ∃ r, t `prefix_of` [EvGetUser; EvQuery r; EvRevalidate (js "/polls")].

(** Every write the backend carried out is followed by the invalidation of
    the poll listing, and by nothing else. *)
Definition revalidates_after_write (w : World) (t : list Event) : Prop :=
  ∀ pre r post,
    t = pre ++ EvQuery r :: post → is_write r → succeeded w r →
    post = [EvRevalidate (js "/polls")].

Definition is_revalidate (e : Event) : bool :=
  match e with
  | EvRevalidate _ => true
  | _ => false
  end.

#[global] Instance newest_first_trans : Transitive newest_first.
Proof. unfold newest_first. intros p q r. lia. Qed.

#[global] Instance newest_first_total : Total newest_first.
Proof. unfold newest_first. intros p q. lia. Qed.

Arguments js : simpl never.
Arguments lit : simpl never.
Arguments lit_i : simpl never.
Arguments row_matches : simpl never.
Arguments sanitizeString : simpl never.
Arguments validatePollInput : simpl never.

(** What follows a write [r] in the trace of a handler that invalidates the
    poll listing: the invalidation, unless the backend refused the write. *)
Definition revalidation_after (w : World) (r : Request) : list Event :=
  match w_fault w r with
  | None => [EvRevalidate (js "/polls")]
  | Some _ => []
  end.

(** The form without its empty option fields. *)
Definition drop_empty_options (formData : FormData) : FormData :=
  filter (λ e, ¬ (e.1 = js "options" ∧ e.2 = [])) formData.

(** ** Example data *)

Definition LF : N := 0x0A.

Definition alice : User := mkUser (js "u-alice") (Some ∅).
Definition bob : User := mkUser (js "u-bob") None.
Definition root : User :=
  mkUser (js "u-root") (Some {[ js "role" := JString (js "admin") ]}).

Definition bobs_poll : Poll :=
  mkPoll (js "p1") (js "u-bob") (js "Tea or coffee?") [js "Tea"; js "Coffee"] 10.
Definition alices_old_poll : Poll :=
  mkPoll (js "p2") (js "u-alice") (js "Cats or dogs?") [js "Cats"; js "Dogs"] 20.
Definition alices_new_poll : Poll :=
  mkPoll (js "p3") (js "u-alice") (js "Vim or Emacs?") [js "Vim"; js "Emacs"] 30.

(** A healthy backend holding three polls, seen by a given session. *)
Definition world_of (session : AuthResponse) : World :=
  mkWorld session [bobs_poll; alices_old_poll; alices_new_poll] []
    (λ _, None) (js "p4") 40.

Definition signed_in (user : User) : World := world_of (mkAuth (Some user) None).
Definition signed_out : World :=
  world_of (mkAuth None (Some (js "Auth session missing!"))).

Definition good_form : FormData :=
  [(js "question", js "Red or <b>blue</b>?");
   (js "options", js "Red"); (js "options", js ""); (js "options", js "Blue")].

(** One option field left empty, one filled in. *)
Definition one_empty_option_form : FormData :=
  [(js "question", js "Red or blue?");
   (js "options", js "Red"); (js "options", js "")].

(** One option field holding a single space. *)
Definition blank_option_form : FormData :=
  [(js "question", js "Red or blue?");
   (js "options", js "Red"); (js "options", js " ")].

(** ** getPollById (poll-actions.ts, l. 247-259)

    The handler takes neither the session nor a user filter: its one call is
    [.select("*").eq("id", id).single()]. *)

(** [{ data, error }] of a [.single()] read. *)
Record SingleResponse : Type := mkSingle {
  single_data : option Poll;
  single_error : option jsstring
}.

(** [{ poll, error }] *)
Record PollResult : Type := mkPollResult {
  poll : option Poll;
  poll_error : option jsstring
}.

(** Modelled from the spec: the external backend's select (section 6) under
    the client library's [.single()] contract, which is no code of this
    repository: the row is returned when exactly one row matches, and an
    error otherwise.  [refusal] is the error of a request the backend does
    not carry out, [not_one_row] the message of the [.single()] failure. *)
Definition select_single (refusal : option jsstring) (not_one_row : jsstring)
    (rows : list Poll) (filters : list (Column * jsstring)) : SingleResponse :=
  match refusal with
  | Some e => mkSingle None (Some e)
  | None =>
      match filter (λ p, row_matches filters p) rows with
      | [p] => mkSingle (Some p) None
      | _ => mkSingle None (Some not_one_row)
      end
  end.

Definition getPollById (single : list (Column * jsstring) → SingleResponse)
    (id : jsstring) : PollResult :=
  let resp := single [(col_id, id)] in
  match single_error resp with
  | Some message => mkPollResult None (Some message)
  | None => mkPollResult (single_data resp) None
  end.

(** The backend of a world, as [getPollById] reads it. *)
Definition single_port (refusal : option jsstring) (not_one_row : jsstring)
    (w : World) : list (Column * jsstring) → SingleResponse :=
  select_single refusal not_one_row (w_polls w).

(** ** The option fields of PollCreateForm and EditPollForm

    The state updaters the two components pass to [setOptions]. *)

(** [opts.map((opt, i) => (i === idx ? value : opt))] *)
Definition handleOptionChange (idx : nat) (value : jsstring)
    (opts : list jsstring) : list jsstring :=
  imap (λ i opt, if (i =? idx)%nat then value else opt) opts.

(** [[...opts, ""]] *)
Definition addOption (opts : list jsstring) : list jsstring := opts ++ [[]].

(** [arr.filter((_, i) => keep(i))] *)
Definition filter_by_index {A} (keep : nat → bool) (l : list A) : list A :=
  mjoin (imap (λ i x, if keep i then [x] else []) l).

(** [if (options.length > 2) setOptions((opts) => opts.filter((_, i) => i !== idx))]:
    [options] is the state the component was rendered with, [opts] the state
    the updater receives. *)
Definition removeOption (options : list jsstring) (idx : nat)
    (opts : list jsstring) : list jsstring :=
  if (2 <? length options)%nat
  then filter_by_index (λ i, negb (i =? idx)%nat) opts
  else opts.

(** What the user does to the option fields, one event per render. *)
Inductive OptionEvent : Type :=
| Typed (idx : nat) (value : jsstring)   (* onChange of field idx *)
| AddClicked                              (* the "Add Option" button *)
| RemoveClicked (idx : nat).              (* the "Remove" button of field idx *)

Definition option_step (opts : list jsstring) (e : OptionEvent) : list jsstring :=
  match e with
  | Typed idx value => handleOptionChange idx value opts
  | AddClicked => addOption opts
  | RemoveClicked idx => removeOption opts idx opts
  end.

Definition options_after (initial : list jsstring) (events : list OptionEvent)
  : list jsstring :=
  foldl option_step initial events.

(** [useState(["", ""])] of PollCreateForm. *)
Definition PollCreateForm_initial_options : list jsstring := [[]; []].

(** ** FormData mutation, as EditPollForm uses it *)

Definition formData_append (name value : jsstring) (fd : FormData) : FormData :=
  fd ++ [(name, value)].

Definition formData_delete (name : jsstring) (fd : FormData) : FormData :=
  filter (λ e, e.1 ≠ name) fd.

(** [formData.set(name, value)]: the first entry of that name takes the
    value and the others go; with no such entry the pair is appended. *)
Fixpoint formData_set (name value : jsstring) (fd : FormData) : FormData :=
  match fd with
  | [] => [(name, value)]
  | e :: fd' =>
      if decide (e.1 = name) then (name, value) :: formData_delete name fd'
      else e :: formData_set name value fd'
  end.

(** The first lines of EditPollForm's action: [formData.set('question',
    question); formData.delete('options'); options.forEach((opt) =>
    formData.append('options', opt))]. *)
Definition EditPollForm_formData (question : jsstring) (options : list jsstring)
    (formData : FormData) : FormData :=
  foldl (λ fd opt, formData_append (js "options") opt fd)
    (formData_delete (js "options") (formData_set (js "question") question formData))
    options.

(** ** The rest of the two form actions *)

Fixpoint Prog_bind {A B} (p : Prog A) (f : A → Prog B) : Prog B :=
  match p with
  | Ret a => f a
  | GetUser k => GetUser (λ auth, Prog_bind (k auth) f)
  | Query r k => Query r (λ resp, Prog_bind (k resp) f)
  | RevalidatePath path k => RevalidatePath path (Prog_bind k f)
  end.

(** Truthiness of a [string | null]: a non-empty string. *)
Definition truthy (v : option jsstring) : bool :=
  match v with
  | Some s => Boolean s
  | None => false
  end.

(** What a form shows once its action has run: the error line, the success
    line, and the address of the redirect it has scheduled, if any. *)
Record FormView : Type := mkFormView {
  view_error : option jsstring;
  view_success : bool;
  view_redirect : option jsstring
}.

(** [setError(null); setSuccess(false); ...; if (res?.error) setError(res.error)
    else { setSuccess(true); setTimeout(() => window.location.href = "/polls") }] *)
Definition show_result (res : ActionResult) : FormView :=
  if truthy (error res) then mkFormView (error res) false None
  else mkFormView None true (Some (js "/polls")).

Definition PollCreateForm_action (formData : FormData) : Prog FormView :=
  Prog_bind (createPoll formData) (λ res, Ret (show_result res)).

Definition EditPollForm_action (poll_id question : jsstring)
    (options : list jsstring) (formData : FormData) : Prog FormView :=
  Prog_bind (updatePoll poll_id (EditPollForm_formData question options formData))
    (λ res, Ret (show_result res)).

(** ** The admin page (fetchAllPolls, handleDelete) *)

Record AdminPage : Type := mkAdminPage {
  page_polls : list Poll;                 (* polls *)
  page_loading : bool;                    (* loading *)
  page_deleteLoading : option jsstring;   (* deleteLoading *)
  page_alerts : list jsstring             (* the texts of the alerts shown *)
}.

(** [select("*").order("created_at", { ascending: false })]; [if (!error &&
    data) setPolls(data); setLoading(false)]. *)
Definition fetchAllPolls (page : AdminPage) : Prog AdminPage :=
  Query (SelectPollsNewestFirst []) (λ resp,
    let shown :=
      match db_error resp, data resp with
      | None, Some rows => rows
      | _, _ => page_polls page
      end in
    Ret (mkAdminPage shown false (page_deleteLoading page) (page_alerts page))).

(** [handleDelete] up to its [await]: [if (!confirm(...)) return;
    setDeleteLoading(pollId)].  [confirmed] is the answer to the dialog. *)
Definition handleDelete_begin (confirmed : bool) (pollId : jsstring)
    (page : AdminPage) : AdminPage :=
  if negb confirmed then page
  else mkAdminPage (page_polls page) (page_loading page) (Some pollId)
         (page_alerts page).

(** [handleDelete] from its [await] on.  [polls] is the list of the render
    the clicked button belongs to: the handler holds on to it across the
    [await] and [setPolls(polls.filter(...))] writes it back, filtered,
    whatever the page shows by then.  The writes to the state and the alert
    come back as the update of the page that is current when the server
    action has answered. *)
Definition handleDelete (confirmed : bool) (polls : list Poll) (pollId : jsstring)
  : Prog (AdminPage → AdminPage) :=
  if negb confirmed then Ret (λ page, page)
  else
    Prog_bind (adminDeletePoll pollId) (λ result,
      if negb (truthy (error result)) then
        Ret (λ page,
               mkAdminPage (filter (λ p, poll_id p ≠ pollId) polls)
                 (page_loading page) None (page_alerts page))
      else
        Ret (λ page,
               mkAdminPage (page_polls page) (page_loading page) None
                 (page_alerts page
                    ++ [js "Error deleting poll: " ++ default [] (error result)]))).

(** The list the page shows is the polls table, newest first. *)
Definition page_in_sync (page : AdminPage) (w : World) : Prop :=
  page_polls page ≡ₚ w_polls w ∧ StronglySorted newest_first (page_polls page).

(** A string holds no tag: after a [<] there is no [>]. *)
Definition tag_free (s : jsstring) : Prop :=
  ∀ pre post, s = pre ++ 0x3C :: post → 0x3E ∉ post.

(** What the data model asks of the text of a poll that is written. *)
Definition storable (question : jsstring) (options : list jsstring) : Prop :=
  (length question ≤ 500)%nat ∧ tag_free question
  ∧ (2 ≤ length options ≤ 10)%nat
  ∧ Forall (λ o, (length o ≤ 200)%nat ∧ tag_free o) options.

(** * Properties *)

(** ** Strings *)

Lemma trimStart_nil (s : jsstring) : trimStart s = [] ↔ all_whitespace s.
Proof.
  unfold all_whitespace. induction s as [|c s IH]; simpl.
  - split; [constructor | done].
  - destruct (is_trimmable c) eqn:Hc.
    + rewrite IH. split; [by constructor; [rewrite Hc|] | by inversion 1].
    + split; [done | inversion 1 as [|? ? Hc']; by rewrite Hc in Hc'].
Qed.

Lemma trimStart_head (s : jsstring) (c : N) (t : jsstring) :
  trimStart s = c :: t → is_trimmable c = false.
Proof.
  induction s as [|d s IH]; simpl; [done|].
  destruct (is_trimmable d) eqn:Hd; [done|]. by intros [= -> _].
Qed.

Lemma trim_nil (s : jsstring) : trim s = [] ↔ all_whitespace s.
Proof.
  rewrite <-trimStart_nil. unfold trim, trimEnd. split.
  - intros H. apply (f_equal reverse) in H. rewrite reverse_involutive in H.
    simpl in H. apply trimStart_nil in H.
    destruct (trimStart s) as [|c t] eqn:Hs; [done|].
    apply trimStart_head in Hs. unfold all_whitespace in H.
    rewrite Forall_reverse in H. inversion H as [|? ? Hc]. by rewrite Hs in Hc.
  - by intros ->.
Qed.

Lemma length_zero {A} (l : list A) : (length l =? 0)%nat = true ↔ l = [].
Proof. destruct l; simpl; split; done. Qed.

Lemma js_inj (s t : string) : js s = js t → s = t.
Proof.
  unfold js. intros H.
  assert (Inj (=) (=) N_of_ascii) as Hinj.
  { intros a b Hab. rewrite <-(ascii_N_embedding a), <-(ascii_N_embedding b).
    by rewrite Hab. }
  apply (inj (fmap N_of_ascii)) in H.
  rewrite <-(string_of_list_ascii_of_string s),
    <-(string_of_list_ascii_of_string t). by rewrite H.
Qed.

Lemma Number_toString_inj (n m : nat) :
  Number_toString n = Number_toString m → n = m.
Proof.
  unfold Number_toString. intros H%js_inj.
  apply (f_equal NilEmpty.uint_of_string) in H.
  rewrite !NilEmpty.usu in H. injection H as H.
  apply (f_equal Nat.of_uint) in H. by rewrite !Unsigned.of_to in H.
Qed.

Lemma option_empty_msg_inj (i j : nat) :
  option_empty_msg i = option_empty_msg j → i = j.
Proof.
  unfold option_empty_msg. intros H.
  apply app_inv_head, app_inv_tail, Number_toString_inj in H. lia.
Qed.

Lemma option_long_msg_not_empty_msg (i j : nat) :
  option_long_msg i ≠ option_empty_msg j.
Proof.
  unfold option_long_msg, option_empty_msg. intros H.
  apply app_inv_head in H. apply (f_equal last) in H.
  rewrite !last_app in H. vm_compute in H. done.
Qed.

(** ** Validation *)

Lemma falsy_trim (s : jsstring) :
  falsy s || (length (trim s) =? 0)%nat = true ↔ trim s = [].
Proof.
  rewrite orb_true_iff, length_zero. split; [|by right].
  intros [H|H]; [|done]. unfold falsy, Boolean in H.
  rewrite negb_involutive in H. by apply bool_decide_eq_true in H as ->.
Qed.

Lemma question_errors_nil (question : option jsstring) :
  question_errors question = [] ↔
  ∃ q, question = Some q ∧ trim q ≠ [] ∧ (length (trim q) ≤ 500)%nat.
Proof.
  destruct question as [q|]; simpl; [|split; [done | by intros (? & ? & _)]].
  destruct (falsy q || (length (trim q) =? 0)%nat) eqn:He.
  - apply falsy_trim in He. split; [done|]. by intros (? & [= <-] & ? & _).
  - assert (trim q ≠ []) as Hq by (rewrite <-falsy_trim, He; done).
    destruct (500 <? length (trim q))%nat eqn:Hl.
    + apply Nat.ltb_lt in Hl. split; [done|]. intros (? & [= <-] & _ & ?). lia.
    + apply Nat.ltb_ge in Hl. split; [|done]. intros _. by exists q.
Qed.

Lemma count_errors_nil (options : list jsstring) :
  count_errors options = [] ↔ (2 ≤ length options ≤ 10)%nat.
Proof.
  unfold count_errors.
  destruct (length options <? 2)%nat eqn:H2;
    [apply Nat.ltb_lt in H2 | apply Nat.ltb_ge in H2].
  - split; [done | lia].
  - destruct (10 <? length options)%nat eqn:H10;
      [apply Nat.ltb_lt in H10 | apply Nat.ltb_ge in H10]; split; (done || lia).
Qed.

Lemma option_errors_nil (index : nat) (option : jsstring) :
  option_errors index option = [] ↔
  trim option ≠ [] ∧ (length (trim option) ≤ 200)%nat.
Proof.
  unfold option_errors.
  destruct (falsy option || (length (trim option) =? 0)%nat) eqn:He.
  - apply falsy_trim in He. split; [done | by intros [? _]].
  - assert (trim option ≠ []) as Hq by (rewrite <-falsy_trim, He; done).
    destruct (200 <? length (trim option))%nat eqn:Hl;
      [apply Nat.ltb_lt in Hl | apply Nat.ltb_ge in Hl].
    + split; [done | lia].
    + done.
Qed.

Lemma forEach_errors_nil (f : nat → jsstring → list jsstring) (P : jsstring → Prop)
    (options : list jsstring) :
  (∀ i o, f i o = [] ↔ P o) →
  mjoin (imap f options) = [] ↔ Forall P options.
Proof.
  revert f. induction options as [|o options IH]; intros f Hf; simpl.
  - split; [constructor | done].
  - rewrite Forall_cons, <-(Hf 0%nat o), <-(IH (f ∘ S)).
    + split; [by intros [-> ->]%app_eq_nil | by intros [-> ->]].
    + intros i o'. apply Hf.
Qed.

Lemma validatePollInput_nil (question : option jsstring) (options : list jsstring) :
  validatePollInput question options = [] ↔
  (∃ q, question = Some q ∧ trim q ≠ [] ∧ (length (trim q) ≤ 500)%nat)
  ∧ (2 ≤ length options ≤ 10)%nat
  ∧ Forall (λ o, trim o ≠ [] ∧ (length (trim o) ≤ 200)%nat) options.
Proof.
  unfold validatePollInput.
  rewrite <-question_errors_nil, <-count_errors_nil,
    <-(forEach_errors_nil option_errors _ options option_errors_nil).
  split.
  - by intros [-> [-> ->]%app_eq_nil]%app_eq_nil.
  - by intros (-> & -> & ->).
Qed.

Lemma createPoll_invalid (formData : FormData) :
  validatePollInput (rawQuestion_of formData) (rawOptions_of formData) ≠ [] →
  createPoll formData =
  Ret (mkResult (Some (join (js ", ")
    (validatePollInput (rawQuestion_of formData) (rawOptions_of formData))))).
Proof.
  intros H. unfold createPoll.
  by destruct (validatePollInput _ _).
Qed.

Lemma updatePoll_invalid (pollId : jsstring) (formData : FormData) :
  validatePollInput (rawQuestion_of formData) (rawOptions_of formData) ≠ [] →
  updatePoll pollId formData =
  Ret (mkResult (Some (join (js ", ")
    (validatePollInput (rawQuestion_of formData) (rawOptions_of formData))))).
Proof.
  intros H. unfold updatePoll.
  by destruct (validatePollInput _ _).
Qed.

(** C3. [validatePollInput] returns no error exactly when the trimmed
    question is non-empty and at most 500 units long, there are between 2 and
    10 options, and every trimmed option is non-empty and at most 200 units
    long; fewer than 2 or more than 10 options are always rejected; and on a
    rejected form [createPoll] and [updatePoll] return the messages joined by
    a comma and a space without touching any collaborator. *)
Theorem validatePollInput_rules
    (question : option jsstring) (options : list jsstring)
    (formData : FormData) (pollId : jsstring) (w : World) :
  (validatePollInput question options = [] ↔
     (∃ q, question = Some q ∧ trim q ≠ [] ∧ (length (trim q) ≤ 500)%nat)
     ∧ (2 ≤ length options ≤ 10)%nat
     ∧ Forall (λ o, trim o ≠ [] ∧ (length (trim o) ≤ 200)%nat) options)
  ∧ ((length options < 2 ∨ 10 < length options)%nat →
       validatePollInput question options ≠ [])
  ∧ (validatePollInput (rawQuestion_of formData) (rawOptions_of formData) ≠ [] →
       run (createPoll formData) w =
         mkOutcome (mkResult (Some (join (js ", ")
           (validatePollInput (rawQuestion_of formData) (rawOptions_of formData)))))
           w []
       ∧ run (updatePoll pollId formData) w =
         mkOutcome (mkResult (Some (join (js ", ")
           (validatePollInput (rawQuestion_of formData) (rawOptions_of formData)))))
           w []).
Proof.
  split; [apply validatePollInput_nil|]. split.
  - intros Hlen Hnil%validatePollInput_nil. lia.
  - intros H. by rewrite createPoll_invalid, updatePoll_invalid.
Qed.

Lemma validatePollInput_rules_witness :
  validatePollInput (Some (js "Red or blue?")) [js "Red"] ≠ []
  ∧ run (createPoll one_empty_option_form) signed_out =
      mkOutcome (mkResult (Some (js "At least 2 options are required")))
        signed_out []
  ∧ run (updatePoll (js "p1") one_empty_option_form) signed_out =
      mkOutcome (mkResult (Some (js "At least 2 options are required")))
        signed_out [].
Proof.
  destruct (validatePollInput_rules (Some (js "Red or blue?")) [js "Red"]
              one_empty_option_form (js "p1") signed_out) as (_ & Hcount & Hform).
  split.
  - apply Hcount. left. simpl. lia.
  - apply Hform. vm_compute. discriminate.
Defined.

(** ** Sanitization *)

Lemma sanitizeString_example :
  sanitizeString (js "<script>alert(1)</script>Hello") = js "Hello".
Proof. vm_compute. reflexivity. Qed.

Lemma trimStart_decompose (s : jsstring) :
  ∃ a, s = a ++ trimStart s ∧ all_whitespace a.
Proof.
  induction s as [|c s (a & Hs & Ha)]; simpl.
  - exists []. split; [done | constructor].
  - destruct (is_trimmable c) eqn:Hc.
    + exists (c :: a). split; [by rewrite Hs at 1|].
      constructor; [by rewrite Hc | done].
    + exists []. split; [done | constructor].
Qed.

(** [trim] only takes white space off the two ends. *)
Lemma trim_decompose (s : jsstring) :
  ∃ a b, s = a ++ trim s ++ b ∧ all_whitespace a ∧ all_whitespace b.
Proof.
  destruct (trimStart_decompose s) as (a & Hs & Ha).
  destruct (trimStart_decompose (reverse (trimStart s))) as (b & Hr & Hb).
  exists a, (reverse b). split; [|split; [done | by apply Forall_reverse]].
  unfold trim, trimEnd. rewrite <-reverse_app, <-Hr, reverse_involutive. done.
Qed.

Lemma replace_go_sublist (pat : list ReItem) (skip : nat) (s : jsstring) :
  replace_go pat skip s `sublist_of` s.
Proof.
  revert skip. induction s as [|c s IH]; intros skip; simpl; [constructor|].
  destruct skip; [|by constructor].
  destruct (re_exec pat (c :: s)) as [[|m]|]; by constructor.
Qed.

(** Sanitizing only deletes: what comes out is what went in, with some of
    its code units left out. *)
Lemma sanitizeString_sublist (input : jsstring) :
  sanitizeString input `sublist_of` input.
Proof.
  unfold sanitizeString, replace_all.
  etrans; [apply replace_go_sublist|]. etrans; [apply replace_go_sublist|].
  destruct (trim_decompose input) as (a & b & Hs & _). rewrite Hs at 2.
  by apply sublist_inserts_l, sublist_inserts_r.
Qed.

Lemma re_exec_tag_re (c : N) (s : jsstring) :
  re_exec tag_re (c :: s)
  = if c =? 0x3C
    then S <$> re_greedy (not_chr 0x3E) (re_exec (lit ">")) s
    else None.
Proof. reflexivity. Qed.

Lemma re_exec_script_re (c : N) (s : jsstring) :
  (c =? 0x3C) = false → re_exec script_re (c :: s) = None.
Proof.
  intros Hc.
  change (re_exec script_re (c :: s))
    with (if c =? 0x3C
          then S <$> re_exec (lit_i "script" ++ [Star (not_chr 0x3E)] ++ lit_i ">"
                                ++ [StarLazy dot] ++ lit_i "</script>") s
          else None).
  by rewrite Hc.
Qed.

Lemma replace_all_plain (pat : list ReItem) (s : jsstring) :
  (∀ c t, (c =? 0x3C) = false → re_exec pat (c :: t) = None) →
  0x3C ∉ s → replace_all pat s = s.
Proof.
  intros Hpat. unfold replace_all. induction s as [|c s IH]; intros Hs; [done|].
  apply not_elem_of_cons in Hs as [Hc Hs]. simpl.
  rewrite Hpat by (by apply N.eqb_neq). by rewrite IH.
Qed.

(** Text without any [<] is kept as it is, trimmed. *)
Lemma sanitizeString_plain_text (input : jsstring) :
  0x3C ∉ input → sanitizeString input = trim input.
Proof.
  intros Hs. unfold sanitizeString.
  assert (0x3C ∉ trim input) as Ht.
  { intros Hin. apply Hs. destruct (trim_decompose input) as (a & b & -> & _).
    rewrite !elem_of_app. auto. }
  rewrite (replace_all_plain script_re) by (done || apply re_exec_script_re).
  apply replace_all_plain; [|done].
  intros c t Hc. by rewrite re_exec_tag_re, Hc.
Qed.

Lemma re_greedy_cons (p : N → bool) (k : jsstring → option nat)
    (c : N) (s : jsstring) :
  re_greedy p k (c :: s)
  = if p c
    then match re_greedy p k s with
         | Some n => Some (S n)
         | None => k (c :: s)
         end
    else k (c :: s).
Proof. reflexivity. Qed.

Lemma re_exec_gt (c : N) (s : jsstring) :
  re_exec (lit ">") (c :: s) = if c =? 0x3E then Some 1%nat else None.
Proof. reflexivity. Qed.

Lemma find_gt_none (s : jsstring) :
  re_greedy (not_chr 0x3E) (re_exec (lit ">")) s = None → 0x3E ∉ s.
Proof.
  induction s as [|c s IH]; [by intros _ ?%elem_of_nil|].
  rewrite re_greedy_cons, re_exec_gt. unfold not_chr at 1.
  destruct (c =? 0x3E) eqn:Hc; [done|]. cbn [negb].
  destruct (re_greedy _ _ s); [done|]. intros _.
  apply N.eqb_neq in Hc. apply not_elem_of_cons. auto.
Qed.

Lemma replace_go_tag_re_no_tag (s : jsstring) (skip : nat) (pre post : jsstring) :
  replace_go tag_re skip s = pre ++ 0x3C :: post → 0x3E ∉ post.
Proof.
  revert skip pre post. induction s as [|c s IH]; intros skip pre post.
  - simpl. intros H. by apply app_cons_not_nil in H.
  - cbn [replace_go]. destruct skip as [|skip]; [|apply IH].
    rewrite re_exec_tag_re. destruct (c =? 0x3C) eqn:Hc.
    + destruct (re_greedy _ _ s) as [m|] eqn:Hgt; cbn [fmap option_fmap option_map];
        [apply IH|].
      apply find_gt_none in Hgt. destruct pre as [|d pre]; simpl.
      * intros [= _ <-] Hin. apply Hgt.
        eapply sublist_subseteq; [apply replace_go_sublist | done].
      * intros [= _ H]. by apply IH in H.
    + destruct pre as [|d pre]; simpl.
      * intros [= -> _]. done.
      * intros [= _ H]. by apply IH in H.
Qed.

(** No tag is left in a sanitized string: after a [<] there is no [>]. *)
Lemma sanitizeString_no_tag (input pre body post : jsstring) :
  sanitizeString input = pre ++ js "<" ++ body ++ js ">" ++ post → False.
Proof.
  unfold sanitizeString, replace_all. intros H.
  apply replace_go_tag_re_no_tag in H. apply H.
  rewrite elem_of_app. right. left.
Qed.

(** C4. The script pattern's [.] stops at a line terminator, so a script
    block that spans lines is not matched: only its two tags go (as plain
    tags), and the script text stays in the sanitized string. *)
Theorem sanitizeString_multiline_script :
  sanitizeString
    (js "<script>" ++ [LF] ++ js "alert(1)" ++ [LF] ++ js "</script>Hello")
  = [LF] ++ js "alert(1)" ++ [LF] ++ js "Hello".
Proof. vm_compute. reflexivity. Qed.

(** ** Empty option fields *)

Lemma Boolean_nonempty (s : jsstring) : Boolean s ↔ s ≠ [].
Proof.
  unfold Boolean. rewrite negb_True, bool_decide_spec. done.
Qed.

Lemma formData_getAll_drop_empty (name : jsstring) (formData : FormData) :
  filter (λ o, Boolean o) (formData_getAll name (drop_empty_options formData))
  = filter (λ o, Boolean o) (formData_getAll name formData).
Proof.
  unfold formData_getAll, drop_empty_options.
  induction formData as [|[k v] fd IH]; [done|].
  rewrite (filter_cons _ (k, v) fd).
  rewrite (filter_cons (λ e, e.1 = name) (k, v) fd).
  destruct (decide (¬ ((k, v).1 = js "options" ∧ (k, v).2 = []))) as [Hkeep|Hdrop].
  - rewrite (filter_cons (λ e, e.1 = name) (k, v)).
    destruct (decide ((k, v).1 = name)); [|done].
    rewrite !fmap_cons, !filter_cons, IH. done.
  - apply dec_stable in Hdrop as [Hk Hv]. simpl in Hk, Hv. subst k v.
    destruct (decide ((js "options", []).1 = name)); [|done].
    rewrite fmap_cons, filter_cons. rewrite decide_False; [done|].
    rewrite Boolean_nonempty. auto.
Qed.

Lemma rawQuestion_drop_empty (formData : FormData) :
  rawQuestion_of (drop_empty_options formData) = rawQuestion_of formData.
Proof.
  unfold rawQuestion_of, formData_get, formData_getAll, drop_empty_options.
  f_equal. f_equal. rewrite list_filter_filter.
  apply list_filter_iff. intros [k v]. simpl. split; [by intros [? _]|].
  intros ->. split; [done|]. intros [Hk _]. vm_compute in Hk. done.
Qed.

Lemma question_errors_head (question : option jsstring) (m : jsstring) :
  m ∈ question_errors question → head m = Some 0x51.
Proof.
  unfold question_errors. destruct question as [q|].
  - destruct (falsy q || _); [by intros ->%list_elem_of_singleton|].
    destruct (500 <? _)%nat; [by intros ->%list_elem_of_singleton|].
    by intros ?%elem_of_nil.
  - by intros ->%list_elem_of_singleton.
Qed.

Lemma count_errors_head (options : list jsstring) (m : jsstring) :
  m ∈ count_errors options → head m = Some 0x41 ∨ head m = Some 0x4D.
Proof.
  unfold count_errors.
  destruct (_ <? 2)%nat; [intros ->%list_elem_of_singleton; by left|].
  destruct (10 <? _)%nat; [intros ->%list_elem_of_singleton; by right|].
  by intros ?%elem_of_nil.
Qed.

Lemma option_empty_msg_elem_of (question : option jsstring)
    (options : list jsstring) (n : nat) :
  option_empty_msg n ∈ validatePollInput question options ↔
  ∃ o, options !! n = Some o ∧ trim o = [].
Proof.
  unfold validatePollInput. rewrite !elem_of_app, list_elem_of_join. split.
  - intros [Hq|[Hc|(l & Hl & Hin)]].
    + apply question_errors_head in Hq. discriminate Hq.
    + apply count_errors_head in Hc as [Hc|Hc]; discriminate Hc.
    + apply elem_of_lookup_imap in Hin as (i & o & -> & Ho).
      unfold option_errors in Hl.
      destruct (falsy o || (length (trim o) =? 0)%nat) eqn:He.
      * apply list_elem_of_singleton, option_empty_msg_inj in Hl as ->.
        apply falsy_trim in He. eauto.
      * destruct (200 <? length (trim o))%nat; [|by apply elem_of_nil in Hl].
        apply list_elem_of_singleton in Hl.
        by apply symmetry, option_long_msg_not_empty_msg in Hl.
  - intros (o & Ho & Ht). right; right.
    exists (option_errors n o). split; [|by apply elem_of_lookup_imap_2].
    unfold option_errors. apply falsy_trim in Ht as ->. set_solver.
Qed.

(** What [filter(Boolean)] does to the option fields, and what that means
    for the validation messages. *)
Lemma empty_option_fields (formData : FormData) (pollId : jsstring) :
  rawOptions_of formData
    = filter (λ o, o ≠ []) (formData_getAll (js "options") formData)
  ∧ createPoll (drop_empty_options formData) = createPoll formData
  ∧ updatePoll pollId (drop_empty_options formData) = updatePoll pollId formData
  ∧ (length (rawOptions_of formData)
       + length (filter (λ o, o = []) (formData_getAll (js "options") formData))
     = length (formData_getAll (js "options") formData))%nat
  ∧ ∀ n : nat,
      option_empty_msg n
        ∈ validatePollInput (rawQuestion_of formData) (rawOptions_of formData)
      ↔ ∃ o, rawOptions_of formData !! n = Some o ∧ o ≠ [] ∧ all_whitespace o.
Proof.
  assert (rawOptions_of formData
    = filter (λ o, o ≠ []) (formData_getAll (js "options") formData)) as Hraw.
  { unfold rawOptions_of. apply list_filter_iff. intros o. apply Boolean_nonempty. }
  assert (rawOptions_of (drop_empty_options formData) = rawOptions_of formData)
    as Hopts by apply formData_getAll_drop_empty.
  split; [done|]. split; [|split; [|split]].
  - unfold createPoll. by rewrite rawQuestion_drop_empty, Hopts.
  - unfold updatePoll. by rewrite rawQuestion_drop_empty, Hopts.
  - rewrite Hraw. generalize (formData_getAll (js "options") formData).
    intros l. induction l as [|o l IH]; [done|].
    rewrite !filter_cons. destruct (decide (o = [])).
    + rewrite decide_False by auto. simpl. lia.
    + rewrite decide_True by auto. simpl. lia.
  - intros n. rewrite option_empty_msg_elem_of. split.
    + intros (o & Ho & Ht). exists o. split; [done|].
      split; [|by apply trim_nil].
      apply list_elem_of_lookup_2 in Ho. rewrite Hraw in Ho.
      by apply list_elem_of_filter in Ho as [? _].
    + intros (o & Ho & _ & Hw). exists o. split; [done | by apply trim_nil].
Qed.

Lemma createPoll_one_empty_option (w : World) :
  returned (run (createPoll one_empty_option_form) w)
  = mkResult (Some (js "At least 2 options are required")).
Proof. reflexivity. Qed.

Lemma createPoll_blank_option (w : World) :
  returned (run (createPoll blank_option_form) w)
  = mkResult (Some (js "Option 2 cannot be empty")).
Proof. reflexivity. Qed.

(** ** Running the handlers *)

(** Case analysis on what the backend reports for the request in the goal. *)
Ltac case_fault :=
  match goal with
  | |- context [w_fault ?w ?r] => destruct (w_fault w r) eqn:?
  end.

Lemma row_matches_owner (filters : list (Column * jsstring)) (uid : jsstring)
    (p : Poll) :
  (col_user_id, uid) ∈ filters → row_matches filters p → poll_user_id p = uid.
Proof.
  unfold row_matches. intros Hin Hm. apply Is_true_true in Hm.
  rewrite forallb_forall in Hm. apply list_elem_of_In, Hm in Hin.
  by apply bool_decide_eq_true in Hin.
Qed.

Lemma row_matches_id (filters : list (Column * jsstring)) (id : jsstring)
    (p : Poll) :
  (col_id, id) ∈ filters → row_matches filters p → poll_id p = id.
Proof.
  unfold row_matches. intros Hin Hm. apply Is_true_true in Hm.
  rewrite forallb_forall in Hm. apply list_elem_of_In, Hm in Hin.
  by apply bool_decide_eq_true in Hin.
Qed.

Section CompoundFilter.
Variables (uid : jsstring) (filters : list (Column * jsstring)).
Hypothesis owner_filter : (col_user_id, uid) ∈ filters.

Lemma delete_keeps_others (rows : list Poll) :
  filter (λ p, poll_user_id p ≠ uid) (filter (λ p, ¬ row_matches filters p) rows)
  = filter (λ p, poll_user_id p ≠ uid) rows.
Proof.
  rewrite list_filter_filter. apply list_filter_iff. intros p.
  split; [by intros [? _]|]. intros Hp. split; [done|].
  intros Hm. by apply row_matches_owner with (uid := uid) in Hm.
Qed.

Lemma update_keeps_others (q : jsstring) (o : list jsstring) (rows : list Poll) :
  filter (λ p, poll_user_id p ≠ uid)
    ((λ p, if row_matches filters p then update_row q o p else p) <$> rows)
  = filter (λ p, poll_user_id p ≠ uid) rows.
Proof.
  induction rows as [|p rows IH]; [done|].
  rewrite fmap_cons, !filter_cons, IH.
  destruct (row_matches filters p) eqn:Hm; [|done].
  apply Is_true_true, row_matches_owner with (uid := uid) in Hm; [|done].
  rewrite !decide_False; [done| |]; simpl; auto.
Qed.

Lemma delete_zero_rows (rows : list Poll) :
  (∀ p, p ∈ rows → ¬ row_matches filters p) →
  filter (λ p, ¬ row_matches filters p) rows = rows.
Proof.
  induction rows as [|p rows IH]; intros H; [done|].
  rewrite filter_cons, decide_True by (apply H; left).
  rewrite IH; [done|]. intros p' Hp'. apply H. by right.
Qed.

Lemma update_zero_rows (q : jsstring) (o : list jsstring) (rows : list Poll) :
  (∀ p, p ∈ rows → ¬ row_matches filters p) →
  (λ p, if row_matches filters p then update_row q o p else p) <$> rows = rows.
Proof.
  induction rows as [|p rows IH]; intros H; [done|].
  rewrite fmap_cons, IH by (intros p' Hp'; apply H; by right).
  destruct (row_matches filters p) eqn:Hm; [|done].
  exfalso. apply (H p); [left | by rewrite Hm].
Qed.
End CompoundFilter.

Lemma run_deletePoll (w : World) (user : User) (id : jsstring) :
  authenticated w user →
  run (deletePoll id) w =
  let r := DeletePolls [(col_id, id); (col_user_id, user_id user)] in
  match w_fault w r with
  | Some e => mkOutcome (mkResult (Some e)) w [EvGetUser; EvQuery r]
  | None =>
      mkOutcome (mkResult None)
        (set_polls w (filter (λ p, ¬ row_matches [(col_id, id); (col_user_id, user_id user)] p)
                        (w_polls w)))
        [EvGetUser; EvQuery r; EvRevalidate (js "/polls")]
  end.
Proof.
  unfold authenticated. intros Hauth. simpl. rewrite Hauth. simpl.
  unfold backend. by destruct (w_fault w _).
Qed.

Lemma run_updatePoll (w : World) (user : User) (pollId : jsstring)
    (formData : FormData) :
  authenticated w user →
  validatePollInput (rawQuestion_of formData) (rawOptions_of formData) = [] →
  run (updatePoll pollId formData) w =
  let question := sanitizeString (as_string (rawQuestion_of formData)) in
  let options := sanitizeString <$> rawOptions_of formData in
  let filters := [(col_id, pollId); (col_user_id, user_id user)] in
  let r := UpdatePolls question options filters in
  match w_fault w r with
  | Some e => mkOutcome (mkResult (Some e)) w [EvGetUser; EvQuery r]
  | None =>
      mkOutcome (mkResult None)
        (set_polls w ((λ p, if row_matches filters p
                            then update_row question options p else p)
                        <$> w_polls w))
        [EvGetUser; EvQuery r]
  end.
Proof.
  unfold authenticated, updatePoll. intros Hauth ->. simpl. rewrite Hauth. simpl.
  unfold backend. by destruct (w_fault w _).
Qed.

Lemma run_createPoll (w : World) (user : User) (formData : FormData) :
  authenticated w user →
  validatePollInput (rawQuestion_of formData) (rawOptions_of formData) = [] →
  run (createPoll formData) w =
  let question := sanitizeString (as_string (rawQuestion_of formData)) in
  let options := sanitizeString <$> rawOptions_of formData in
  let r := InsertPoll (user_id user) question options in
  match w_fault w r with
  | Some e => mkOutcome (mkResult (Some e)) w [EvGetUser; EvQuery r]
  | None =>
      mkOutcome (mkResult None)
        (set_polls w
           (w_polls w
              ++ [mkPoll (w_fresh_id w) (user_id user) question options (w_now w)]))
        [EvGetUser; EvQuery r; EvRevalidate (js "/polls")]
  end.
Proof.
  unfold authenticated, createPoll. intros Hauth ->. simpl. rewrite Hauth. simpl.
  unfold backend. by case_fault.
Qed.

(** ** Ownership *)

(** C1. For an authenticated caller, [deletePoll] and [updatePoll] send the
    backend a mutation filtered on both the poll id and the caller's id, so
    every poll of another user is still in the table, unchanged, afterwards
    (the rows of other users are the same list before and after), and when
    the identifier names no poll of the caller the mutation touches zero
    rows. *)
Theorem ownership_compound_filter
    (w : World) (user : User) (id : jsstring) (formData : FormData) :
  authenticated w user →
  (∀ p, p ∈ w_polls w → poll_user_id p ≠ user_id user →
     p ∈ w_polls (world_after (run (deletePoll id) w))
     ∧ p ∈ w_polls (world_after (run (updatePoll id formData) w)))
  ∧ filter (λ p, poll_user_id p ≠ user_id user)
      (w_polls (world_after (run (deletePoll id) w)))
    = filter (λ p, poll_user_id p ≠ user_id user) (w_polls w)
  ∧ filter (λ p, poll_user_id p ≠ user_id user)
      (w_polls (world_after (run (updatePoll id formData) w)))
    = filter (λ p, poll_user_id p ≠ user_id user) (w_polls w)
  ∧ ((∀ q, q ∈ w_polls w → poll_id q = id → poll_user_id q ≠ user_id user) →
       w_polls (world_after (run (deletePoll id) w)) = w_polls w
       ∧ w_polls (world_after (run (updatePoll id formData) w)) = w_polls w)
  ∧ queries (trace (run (deletePoll id) w))
    = [DeletePolls [(col_id, id); (col_user_id, user_id user)]]
  ∧ Forall (λ r, ∃ question options,
              r = UpdatePolls question options
                    [(col_id, id); (col_user_id, user_id user)])
      (queries (trace (run (updatePoll id formData) w))).
Proof.
  intros Hauth.
  pose (filters := [(col_id, id); (col_user_id, user_id user)]).
  assert ((col_user_id, user_id user) ∈ filters) as Hown by (right; left).
  assert ((col_id, id) ∈ filters) as Hid by left.
  pose proof (run_deletePoll w user id Hauth) as Hd. cbv zeta in Hd.
  assert (filter (λ p, poll_user_id p ≠ user_id user)
            (w_polls (world_after (run (deletePoll id) w)))
          = filter (λ p, poll_user_id p ≠ user_id user) (w_polls w)) as Hdel.
  { rewrite Hd. case_fault; simpl; [done|].
    by apply delete_keeps_others. }
  assert (filter (λ p, poll_user_id p ≠ user_id user)
            (w_polls (world_after (run (updatePoll id formData) w)))
          = filter (λ p, poll_user_id p ≠ user_id user) (w_polls w)) as Hupd.
  { destruct (decide (validatePollInput (rawQuestion_of formData)
                        (rawOptions_of formData) = [])) as [Hv|Hv].
    - rewrite (run_updatePoll w user id formData Hauth Hv). cbv zeta.
      case_fault; simpl; [done|]. by apply update_keeps_others.
    - by rewrite updatePoll_invalid. }
  split; [|split; [done|split; [done|split; [|split]]]].
  - intros p Hp Hother.
    assert (p ∈ filter (λ p, poll_user_id p ≠ user_id user) (w_polls w)) as Hin
      by by apply list_elem_of_filter.
    split.
    + rewrite <-Hdel in Hin. by apply list_elem_of_filter in Hin as [_ ?].
    + rewrite <-Hupd in Hin. by apply list_elem_of_filter in Hin as [_ ?].
  - intros Hnone.
    assert (∀ p, p ∈ w_polls w → ¬ row_matches filters p) as Hzero.
    { intros p Hp Hm. apply (Hnone p Hp).
      - by apply row_matches_id with (filters := filters).
      - by apply row_matches_owner with (filters := filters). }
    split.
    + rewrite Hd. case_fault; simpl; [done|].
      by apply delete_zero_rows.
    + destruct (decide (validatePollInput (rawQuestion_of formData)
                          (rawOptions_of formData) = [])) as [Hv|Hv].
      * rewrite (run_updatePoll w user id formData Hauth Hv). cbv zeta.
        case_fault; simpl; [done|]. by apply update_zero_rows.
      * by rewrite updatePoll_invalid.
  - rewrite Hd. by destruct (w_fault w _).
  - destruct (decide (validatePollInput (rawQuestion_of formData)
                        (rawOptions_of formData) = [])) as [Hv|Hv].
    + rewrite (run_updatePoll w user id formData Hauth Hv). cbv zeta.
      case_fault; repeat constructor; eauto.
    + rewrite updatePoll_invalid by done. constructor.
Qed.

Lemma ownership_compound_filter_witness :
  authenticated (signed_in alice) alice
  ∧ w_polls (world_after (run (deletePoll (js "p1")) (signed_in alice)))
    = w_polls (signed_in alice)
  ∧ w_polls (world_after (run (updatePoll (js "p1") good_form) (signed_in alice)))
    = w_polls (signed_in alice).
Proof.
  split; [reflexivity|].
  apply (ownership_compound_filter (signed_in alice) alice (js "p1") good_form);
    [reflexivity|].
  intros q Hq Hid. vm_compute in Hq.
  repeat (apply elem_of_cons in Hq as [->|Hq]; [by vm_compute|]).
  by apply elem_of_nil in Hq.
Defined.

(** ** The admin role *)

Lemma isAdmin_role (user : User) :
  isAdmin user = true ↔ role_of user = Some (JString (js "admin")).
Proof.
  unfold isAdmin. destruct (role_of user) as [[| | |s]|]; try done.
  rewrite bool_decide_eq_true. split; [by intros -> | by intros [= ->]].
Qed.

Lemma row_matches_id_only (id : jsstring) (p : Poll) :
  row_matches [(col_id, id)] p ↔ poll_id p = id.
Proof.
  unfold row_matches. simpl. rewrite andb_true_r. apply bool_decide_spec.
Qed.

Lemma row_matches_user_only (uid : jsstring) (p : Poll) :
  row_matches [(col_user_id, uid)] p ↔ poll_user_id p = uid.
Proof.
  unfold row_matches. simpl. rewrite andb_true_r. apply bool_decide_spec.
Qed.

(** C2. For an authenticated caller whose role metadata is anything but the
    string "admin" (absent metadata, absent role, another string, a value of
    another type), [adminDeletePoll] answers "Admin privileges required to
    delete any poll." after resolving the identity and sends the backend
    nothing; for a caller whose role is the string "admin" it sends one
    delete filtered on the identifier alone, which removes every poll with
    that identifier, whoever owns it. *)
Theorem adminDeletePoll_requires_admin_role
    (w : World) (user : User) (id : jsstring) :
  authenticated w user →
  (role_of user ≠ Some (JString (js "admin")) →
     run (adminDeletePoll id) w =
       mkOutcome
         (mkResult (Some (js "Admin privileges required to delete any poll.")))
         w [EvGetUser])
  ∧ (role_of user = Some (JString (js "admin")) →
       queries (trace (run (adminDeletePoll id) w)) = [DeletePolls [(col_id, id)]]
       ∧ (succeeded w (DeletePolls [(col_id, id)]) →
            returned (run (adminDeletePoll id) w) = mkResult None
            ∧ w_polls (world_after (run (adminDeletePoll id) w))
              = filter (λ p, poll_id p ≠ id) (w_polls w))).
Proof.
  unfold authenticated. intros Hauth. split; intros Hrole.
  - rewrite <-isAdmin_role in Hrole. apply not_true_is_false in Hrole.
    simpl. rewrite Hauth. simpl. by rewrite Hrole.
  - apply isAdmin_role in Hrole. simpl. rewrite Hauth. simpl. rewrite Hrole.
    simpl. unfold backend, succeeded. case_fault; simpl.
    + split; [done|]. done.
    + split; [done|]. intros _. split; [done|].
      apply list_filter_iff. intros p. by rewrite row_matches_id_only.
Qed.

Lemma adminDeletePoll_requires_admin_role_witness :
  (authenticated (signed_in bob) bob
   ∧ run (adminDeletePoll (js "p2")) (signed_in bob) =
       mkOutcome
         (mkResult (Some (js "Admin privileges required to delete any poll.")))
         (signed_in bob) [EvGetUser])
  ∧ (authenticated (signed_in root) root
     ∧ returned (run (adminDeletePoll (js "p2")) (signed_in root)) = mkResult None
     ∧ w_polls (world_after (run (adminDeletePoll (js "p2")) (signed_in root)))
       = filter (λ p, poll_id p ≠ js "p2") (w_polls (signed_in root))).
Proof.
  split; (split; [reflexivity|]).
  - apply (adminDeletePoll_requires_admin_role (signed_in bob) bob (js "p2"));
      [reflexivity | discriminate].
  - apply (adminDeletePoll_requires_admin_role (signed_in root) root (js "p2"));
      reflexivity.
Defined.

Lemma adminDeletePoll_deletes_others_poll :
  w_polls (world_after (run (adminDeletePoll (js "p1")) (signed_in root)))
  = [alices_old_poll; alices_new_poll].
Proof. vm_compute. reflexivity. Qed.

(** ** Callers without an identity *)

Lemma createPoll_fails_closed (w : World) (formData : FormData) :
  unauthenticated w → fails_closed w (run (createPoll formData) w).
Proof.
  unfold unauthenticated, fails_closed, createPoll. intros Hnone.
  destruct (validatePollInput _ _); simpl.
  - rewrite Hnone. destruct (auth_error (w_auth w)); simpl; eauto.
  - eauto.
Qed.

Lemma updatePoll_fails_closed (w : World) (pollId : jsstring) (formData : FormData) :
  unauthenticated w → fails_closed w (run (updatePoll pollId formData) w).
Proof.
  unfold unauthenticated, fails_closed, updatePoll. intros Hnone.
  destruct (validatePollInput _ _); simpl.
  - rewrite Hnone. destruct (auth_error (w_auth w)); simpl; eauto.
  - eauto.
Qed.

Lemma deletePoll_fails_closed (w : World) (id : jsstring) :
  unauthenticated w → fails_closed w (run (deletePoll id) w).
Proof.
  unfold unauthenticated, fails_closed. intros Hnone. simpl.
  rewrite Hnone. destruct (auth_error (w_auth w)); simpl; eauto.
Qed.

Lemma adminDeletePoll_fails_closed (w : World) (id : jsstring) :
  unauthenticated w → fails_closed w (run (adminDeletePoll id) w).
Proof.
  unfold unauthenticated, fails_closed. intros Hnone. simpl.
  rewrite Hnone. destruct (auth_error (w_auth w)); simpl; eauto.
Qed.

Lemma run_submitVote (w : World) (pollId : jsstring) (optionIndex : Z) :
  run (submitVote pollId optionIndex) w =
  let v := mkVote pollId (user_id <$> auth_user (w_auth w)) optionIndex in
  mkOutcome (mkResult (w_fault w (InsertVote v)))
    (match w_fault w (InsertVote v) with
     | Some _ => w
     | None => set_votes w (w_votes w ++ [v])
     end)
    [EvGetUser; EvQuery (InsertVote v)].
Proof. simpl. unfold backend. by case_fault. Qed.

(** C5. With no authenticated identity, [createPoll], [updatePoll],
    [deletePoll] and [adminDeletePoll] each return an error, send the backend
    no write and leave the tables untouched, while [submitVote] goes on to
    insert the vote, with a null [user_id]. *)
Theorem unauthenticated_fails_closed_except_vote
    (w : World) (formData : FormData) (id pollId : jsstring) (optionIndex : Z) :
  unauthenticated w →
  fails_closed w (run (createPoll formData) w)
  ∧ fails_closed w (run (updatePoll id formData) w)
  ∧ fails_closed w (run (deletePoll id) w)
  ∧ fails_closed w (run (adminDeletePoll id) w)
  ∧ writes (trace (run (submitVote pollId optionIndex) w))
    = [InsertVote (mkVote pollId None optionIndex)]
  ∧ (succeeded w (InsertVote (mkVote pollId None optionIndex)) →
       returned (run (submitVote pollId optionIndex) w) = mkResult None
       ∧ w_votes (world_after (run (submitVote pollId optionIndex) w))
         = w_votes w ++ [mkVote pollId None optionIndex]).
Proof.
  intros Hnone.
  split; [by apply createPoll_fails_closed|].
  split; [by apply updatePoll_fails_closed|].
  split; [by apply deletePoll_fails_closed|].
  split; [by apply adminDeletePoll_fails_closed|].
  rewrite run_submitVote. unfold unauthenticated in Hnone. rewrite Hnone.
  simpl. split; [done|]. unfold succeeded. by intros ->.
Qed.

Lemma unauthenticated_fails_closed_except_vote_witness :
  unauthenticated signed_out
  ∧ fails_closed signed_out (run (createPoll good_form) signed_out)
  ∧ fails_closed signed_out (run (updatePoll (js "p1") good_form) signed_out)
  ∧ fails_closed signed_out (run (deletePoll (js "p1")) signed_out)
  ∧ fails_closed signed_out (run (adminDeletePoll (js "p1")) signed_out)
  ∧ writes (trace (run (submitVote (js "p1") 1 ) signed_out))
    = [InsertVote (mkVote (js "p1") None 1)]
  ∧ (succeeded signed_out (InsertVote (mkVote (js "p1") None 1)) →
       returned (run (submitVote (js "p1") 1) signed_out) = mkResult None
       ∧ w_votes (world_after (run (submitVote (js "p1") 1) signed_out))
         = w_votes signed_out ++ [mkVote (js "p1") None 1]).
Proof.
  split; [reflexivity|].
  apply (unauthenticated_fails_closed_except_vote
           signed_out good_form (js "p1") (js "p1") 1).
  reflexivity.
Defined.

Lemma createPoll_signed_out_message :
  returned (run (createPoll good_form) signed_out)
  = mkResult (Some (js "Auth session missing!")).
Proof. vm_compute. reflexivity. Qed.

(** ** Votes *)

(** C6. Whatever the poll identifier and the integer index -- negative,
    beyond the poll's options, for a poll that does not exist -- [submitVote]
    sends the backend the insertion of a vote row carrying exactly that
    index, with no look at the polls table; it returns the backend's error if
    the backend reports one and a null error otherwise, in which case the row
    is in the votes table. *)
Theorem submitVote_no_bounds_check
    (w : World) (pollId : jsstring) (optionIndex : Z) :
  trace (run (submitVote pollId optionIndex) w)
    = [EvGetUser;
       EvQuery (InsertVote
                  (mkVote pollId (user_id <$> auth_user (w_auth w)) optionIndex))]
  ∧ error (returned (run (submitVote pollId optionIndex) w))
    = w_fault w (InsertVote
                   (mkVote pollId (user_id <$> auth_user (w_auth w)) optionIndex))
  ∧ (succeeded w (InsertVote
                    (mkVote pollId (user_id <$> auth_user (w_auth w)) optionIndex)) →
       w_votes (world_after (run (submitVote pollId optionIndex) w))
       = w_votes w
           ++ [mkVote pollId (user_id <$> auth_user (w_auth w)) optionIndex]).
Proof.
  rewrite run_submitVote. simpl. split; [done|]. split; [done|].
  unfold succeeded. by intros ->.
Qed.

Lemma submitVote_no_bounds_check_witness :
  w_votes (world_after (run (submitVote (js "p1") (-7)) (signed_in alice)))
  = w_votes (signed_in alice) ++ [mkVote (js "p1") (Some (js "u-alice")) (-7)].
Proof.
  apply (submitVote_no_bounds_check (signed_in alice) (js "p1") (-7)).
  reflexivity.
Defined.

(** ** Reading one's polls *)

Lemma run_getUserPolls (w : World) (user : User) :
  auth_user (w_auth w) = Some user →
  run getUserPolls w =
  let r := SelectPollsNewestFirst [(col_user_id, user_id user)] in
  match w_fault w r with
  | Some e => mkOutcome (mkPollsResult [] (Some e)) w [EvGetUser; EvQuery r]
  | None =>
      mkOutcome
        (mkPollsResult
           (merge_sort newest_first
              (filter (λ p, row_matches [(col_user_id, user_id user)] p) (w_polls w)))
           None)
        w [EvGetUser; EvQuery r]
  end.
Proof. intros Huser. simpl. rewrite Huser. simpl. unfold backend. by case_fault. Qed.

(** C7. For a caller the session resolves to a user for, [getUserPolls]
    asks the backend for the polls whose [user_id] is the caller's, newest
    first, and (the backend answering) returns exactly those polls, each as
    often as it is in the table, in descending order of creation time, with a
    null error; should the backend report an error instead, that error comes
    back with no polls; with no user it returns no polls and
    "Not authenticated".  Either way it changes nothing. *)
Theorem getUserPolls_own_polls_newest_first (w : World) :
  (∀ user, auth_user (w_auth w) = Some user →
     succeeded w (SelectPollsNewestFirst [(col_user_id, user_id user)]) →
     polls (returned (run getUserPolls w))
       ≡ₚ filter (λ p, poll_user_id p = user_id user) (w_polls w)
     ∧ StronglySorted newest_first (polls (returned (run getUserPolls w)))
     ∧ polls_error (returned (run getUserPolls w)) = None)
  ∧ (∀ user e, auth_user (w_auth w) = Some user →
       w_fault w (SelectPollsNewestFirst [(col_user_id, user_id user)]) = Some e →
       returned (run getUserPolls w) = mkPollsResult [] (Some e))
  ∧ (unauthenticated w →
       returned (run getUserPolls w)
       = mkPollsResult [] (Some (js "Not authenticated")))
  ∧ world_after (run getUserPolls w) = w.
Proof.
  split; [|split; [|split]].
  - intros user Huser Hok. rewrite (run_getUserPolls w user Huser). cbv zeta.
    unfold succeeded in Hok. rewrite Hok. simpl. split; [|split; [|done]].
    + rewrite merge_sort_Permutation.
      erewrite list_filter_iff; [done|]. intros p. apply row_matches_user_only.
    + apply StronglySorted_merge_sort; apply _.
  - intros user e Huser He. rewrite (run_getUserPolls w user Huser). cbv zeta.
    by rewrite He.
  - unfold unauthenticated. intros Hnone. simpl. by rewrite Hnone.
  - destruct (auth_user (w_auth w)) as [user|] eqn:Huser.
    + rewrite (run_getUserPolls w user Huser). cbv zeta. by case_fault.
    + simpl. by rewrite Huser.
Qed.

Lemma getUserPolls_own_polls_newest_first_witness :
  returned (run getUserPolls (signed_in alice))
  = mkPollsResult [alices_new_poll; alices_old_poll] None
  ∧ polls (returned (run getUserPolls (signed_in alice)))
      ≡ₚ filter (λ p, poll_user_id p = user_id alice) (w_polls (signed_in alice))
  ∧ StronglySorted newest_first (polls (returned (run getUserPolls (signed_in alice))))
  ∧ returned (run getUserPolls signed_out)
    = mkPollsResult [] (Some (js "Not authenticated")).
Proof.
  destruct (getUserPolls_own_polls_newest_first (signed_in alice)) as (Hin & _).
  destruct (getUserPolls_own_polls_newest_first signed_out) as (_ & _ & Hout & _).
  destruct (Hin alice) as (Hperm & Hsorted & _); [reflexivity | reflexivity |].
  split; [by vm_compute|]. split; [done|]. split; [done|].
  apply Hout. reflexivity.
Defined.

(** ** Empty option fields, at the handlers *)

Lemma option_messages_head (options : list jsstring) (m : jsstring) :
  m ∈ mjoin (imap option_errors options) → head m = Some 0x4F.
Proof.
  intros (l & Hl & Hin)%list_elem_of_join.
  apply elem_of_lookup_imap in Hin as (i & o & -> & _).
  unfold option_errors in Hl.
  destruct (falsy o || _); [by apply list_elem_of_singleton in Hl as ->|].
  destruct (200 <? _)%nat; [by apply list_elem_of_singleton in Hl as ->|].
  by apply elem_of_nil in Hl.
Qed.

Lemma at_least_two_elem_of (question : option jsstring) (options : list jsstring) :
  js "At least 2 options are required" ∈ validatePollInput question options
  ↔ (length options < 2)%nat.
Proof.
  unfold validatePollInput. rewrite !elem_of_app. split.
  - intros [Hq|[Hc|Ho]].
    + apply question_errors_head in Hq. discriminate Hq.
    + unfold count_errors in Hc.
      destruct (_ <? 2)%nat eqn:H2; [by apply Nat.ltb_lt in H2|].
      destruct (10 <? _)%nat; [|by apply elem_of_nil in Hc].
      by apply list_elem_of_singleton in Hc.
    + apply option_messages_head in Ho. discriminate Ho.
  - intros Hlen. right; left. unfold count_errors.
    apply Nat.ltb_lt in Hlen as ->. left.
Qed.

(** C10. [createPoll] and [updatePoll] validate the question together with
    the option values that are left once the empty strings are dropped.  On
    a form those do not pass, both return the messages of that validation,
    joined, and call nothing; on a form they pass, what an authenticated
    caller's handler sends to the backend carries those options, sanitized.
    So an empty option field only lowers the option count ("At least 2
    options are required" is there exactly when fewer than two options are
    left), the handlers cannot tell a form from the same form without its
    empty option fields, and "Option N cannot be empty" is among the messages
    exactly when the N-th option left is a non-empty string of white space. *)
Theorem empty_options_dropped_before_validation
    (w : World) (formData : FormData) (pollId : jsstring) :
  (validatePollInput (formData_get (js "question") formData)
     (filter (λ o, o ≠ []) (formData_getAll (js "options") formData)) ≠ [] →
   run (createPoll formData) w =
     mkOutcome (mkResult (Some (join (js ", ")
       (validatePollInput (formData_get (js "question") formData)
          (filter (λ o, o ≠ []) (formData_getAll (js "options") formData))))))
       w []
   ∧ run (updatePoll pollId formData) w =
     mkOutcome (mkResult (Some (join (js ", ")
       (validatePollInput (formData_get (js "question") formData)
          (filter (λ o, o ≠ []) (formData_getAll (js "options") formData))))))
       w [])
  ∧ (validatePollInput (formData_get (js "question") formData)
       (filter (λ o, o ≠ []) (formData_getAll (js "options") formData)) = [] →
     ∀ user, authenticated w user →
       queries (trace (run (createPoll formData) w))
       = [InsertPoll (user_id user)
            (sanitizeString (as_string (formData_get (js "question") formData)))
            (sanitizeString
               <$> filter (λ o, o ≠ []) (formData_getAll (js "options") formData))]
       ∧ queries (trace (run (updatePoll pollId formData) w))
         = [UpdatePolls
              (sanitizeString (as_string (formData_get (js "question") formData)))
              (sanitizeString
                 <$> filter (λ o, o ≠ []) (formData_getAll (js "options") formData))
              [(col_id, pollId); (col_user_id, user_id user)]])
  ∧ (js "At least 2 options are required"
       ∈ validatePollInput (formData_get (js "question") formData)
           (filter (λ o, o ≠ []) (formData_getAll (js "options") formData))
     ↔ (length (filter (λ o, o ≠ []) (formData_getAll (js "options") formData)) < 2)%nat)
  ∧ (∀ n : nat,
       option_empty_msg n
         ∈ validatePollInput (formData_get (js "question") formData)
             (filter (λ o, o ≠ []) (formData_getAll (js "options") formData))
       ↔ ∃ o, filter (λ o, o ≠ []) (formData_getAll (js "options") formData) !! n
              = Some o
              ∧ o ≠ [] ∧ all_whitespace o)
  ∧ rawOptions_of formData
    = filter (λ o, o ≠ []) (formData_getAll (js "options") formData)
  ∧ createPoll (drop_empty_options formData) = createPoll formData
  ∧ updatePoll pollId (drop_empty_options formData) = updatePoll pollId formData
  ∧ (length (rawOptions_of formData)
       + length (filter (λ o, o = []) (formData_getAll (js "options") formData))
     = length (formData_getAll (js "options") formData))%nat
  ∧ ∀ n : nat,
      option_empty_msg n
        ∈ validatePollInput (rawQuestion_of formData) (rawOptions_of formData)
      ↔ ∃ o, rawOptions_of formData !! n = Some o ∧ o ≠ [] ∧ all_whitespace o.
Proof.
  destruct (empty_option_fields formData pollId)
    as (Hraw & Hcreate & Hupdate & Hlen & Hblank).
  change (formData_get (js "question") formData) with (rawQuestion_of formData).
  rewrite <-Hraw.
  split; [|split; [|split; [|split; [|done]]]].
  - intros Hv. by rewrite createPoll_invalid, updatePoll_invalid.
  - intros Hv user Hauth.
    rewrite (run_createPoll w user formData Hauth Hv),
      (run_updatePoll w user pollId formData Hauth Hv). cbv zeta.
    split; case_fault; done.
  - apply at_least_two_elem_of.
  - exact Hblank.
Qed.

Lemma empty_options_dropped_before_validation_witness :
  run (createPoll one_empty_option_form) signed_out =
    mkOutcome (mkResult (Some (js "At least 2 options are required")))
      signed_out []
  ∧ run (updatePoll (js "p2") blank_option_form) (signed_in alice) =
    mkOutcome (mkResult (Some (js "Option 2 cannot be empty")))
      (signed_in alice) []
  ∧ queries (trace (run (createPoll good_form) (signed_in alice)))
    = [InsertPoll (js "u-alice") (js "Red or blue?") [js "Red"; js "Blue"]].
Proof.
  destruct (empty_options_dropped_before_validation
              signed_out one_empty_option_form (js "p2")) as ([Hone _] & _);
    [by vm_compute|].
  destruct (empty_options_dropped_before_validation
              (signed_in alice) blank_option_form (js "p2")) as ([_ Hblank] & _);
    [by vm_compute|].
  destruct (empty_options_dropped_before_validation
              (signed_in alice) good_form (js "p2")) as (_ & Hgood & _).
  destruct (Hgood eq_refl alice eq_refl) as [Hsent _].
  split; [exact Hone|]. split; [exact Hblank | exact Hsent].
Defined.

(** ** Order of the steps *)

(** Unfold a handler run by cases on the session, the role and the backend. *)
Ltac run_cases :=
  simpl;
  repeat
    (match goal with
     | |- context [match auth_error ?a with _ => _ end] =>
         destruct (auth_error a) eqn:?
     | |- context [match auth_user ?a with _ => _ end] =>
         destruct (auth_user a) eqn:?
     | |- context [isAdmin ?u] => destruct (isAdmin u) eqn:?
     | |- context [backend ?w ?r] => unfold backend; destruct (w_fault w r) eqn:?
     end; simpl).

Ltac in_order :=
  first
    [ exists (DeletePolls []); repeat apply prefix_cons; apply prefix_nil
    | eexists; repeat apply prefix_cons; apply prefix_nil
    | eexists; reflexivity ].

Lemma authenticated_intro (w : World) (user : User) :
  auth_error (w_auth w) = None → auth_user (w_auth w) = Some user →
  authenticated w user.
Proof. unfold authenticated. destruct (w_auth w). simpl. by intros -> ->. Qed.

Ltac no_query :=
  match goal with
  | H : EvQuery _ ∈ _ |- _ =>
      repeat (apply elem_of_cons in H as [H|H]; [discriminate H|]);
      by apply elem_of_nil in H
  end.

Lemma createPoll_steps (w : World) (formData : FormData) :
  steps_in_order (trace (run (createPoll formData) w))
  ∧ ∀ r, EvQuery r ∈ trace (run (createPoll formData) w) →
      validatePollInput (rawQuestion_of formData) (rawOptions_of formData) = []
      ∧ ∃ user, authenticated w user.
Proof.
  unfold createPoll, steps_in_order.
  destruct (validatePollInput _ _); run_cases;
    (split; [in_order|]); intros r Hr; try no_query;
    eauto using authenticated_intro.
Qed.

Lemma updatePoll_steps (w : World) (pollId : jsstring) (formData : FormData) :
  steps_in_order (trace (run (updatePoll pollId formData) w))
  ∧ ∀ r, EvQuery r ∈ trace (run (updatePoll pollId formData) w) →
      validatePollInput (rawQuestion_of formData) (rawOptions_of formData) = []
      ∧ ∃ user, authenticated w user.
Proof.
  unfold updatePoll, steps_in_order.
  destruct (validatePollInput _ _); run_cases;
    (split; [in_order|]); intros r Hr; try no_query;
    eauto using authenticated_intro.
Qed.

Lemma deletePoll_steps (w : World) (id : jsstring) :
  steps_in_order (trace (run (deletePoll id) w))
  ∧ (∃ t, trace (run (deletePoll id) w) = EvGetUser :: t)
  ∧ ∀ r, EvQuery r ∈ trace (run (deletePoll id) w) → ∃ user, authenticated w user.
Proof.
  unfold steps_in_order. run_cases;
    (split; [in_order|split; [eauto|]]); intros r Hr; try no_query;
    eauto using authenticated_intro.
Qed.

Lemma adminDeletePoll_steps (w : World) (id : jsstring) :
  steps_in_order (trace (run (adminDeletePoll id) w))
  ∧ (∃ t, trace (run (adminDeletePoll id) w) = EvGetUser :: t)
  ∧ ∀ r, EvQuery r ∈ trace (run (adminDeletePoll id) w) →
      ∃ user, authenticated w user ∧ isAdmin user = true.
Proof.
  unfold steps_in_order. run_cases;
    (split; [in_order|split; [eauto|]]); intros r Hr; try no_query;
    eauto using authenticated_intro.
Qed.

Lemma run_adminDeletePoll (w : World) (user : User) (id : jsstring) :
  authenticated w user →
  trace (run (adminDeletePoll id) w) =
  if isAdmin user
  then [EvGetUser; EvQuery (DeletePolls [(col_id, id)])]
         ++ revalidation_after w (DeletePolls [(col_id, id)])
  else [EvGetUser].
Proof.
  unfold authenticated, revalidation_after. intros Hauth. simpl.
  rewrite Hauth. simpl. destruct (isAdmin user); simpl; [|done].
  unfold backend. by case_fault.
Qed.

Lemma traces_without_identity (w : World) (formData : FormData) (id : jsstring) :
  (∀ user, ¬ authenticated w user) →
  (validatePollInput (rawQuestion_of formData) (rawOptions_of formData) = [] →
     trace (run (createPoll formData) w) = [EvGetUser]
     ∧ trace (run (updatePoll id formData) w) = [EvGetUser])
  ∧ trace (run (deletePoll id) w) = [EvGetUser]
  ∧ trace (run (adminDeletePoll id) w) = [EvGetUser].
Proof.
  intros Hnone. split; [intros Hv; unfold createPoll, updatePoll; rewrite Hv|];
    run_cases; repeat split;
    try done;
    match goal with
    | He : auth_error (w_auth w) = None, Hu : auth_user (w_auth w) = Some ?u |- _ =>
        destruct (Hnone u (authenticated_intro w u He Hu))
    end.
Qed.

(** C8, as the code has it.  A handler's calls, read off its trace.
    [createPoll] and [updatePoll] validate first: on an invalid form they
    return the joined messages without any call, whoever calls; on a valid
    form they resolve the identity, stop there unless the caller is
    authenticated, and then send their write, after which [createPoll]
    invalidates the listing if the write was done.  [deletePoll] and
    [adminDeletePoll] resolve the identity first and stop there unless the
    caller is authenticated; [adminDeletePoll] also stops there unless the
    caller is an admin; then each sends its delete and invalidates the
    listing if the delete was done.  [submitVote] and [getUserPolls] resolve
    the identity first and then send their one request ([getUserPolls] only
    for a user). *)
Theorem handlers_validate_then_authenticate
    (w : World) (formData : FormData) (id pollId : jsstring) (optionIndex : Z) :
  (validatePollInput (rawQuestion_of formData) (rawOptions_of formData) ≠ [] →
     run (createPoll formData) w =
       mkOutcome (mkResult (Some (join (js ", ")
         (validatePollInput (rawQuestion_of formData) (rawOptions_of formData)))))
         w []
     ∧ run (updatePoll id formData) w =
       mkOutcome (mkResult (Some (join (js ", ")
         (validatePollInput (rawQuestion_of formData) (rawOptions_of formData)))))
         w [])
  ∧ (validatePollInput (rawQuestion_of formData) (rawOptions_of formData) = [] →
       (∀ user, ¬ authenticated w user) →
       trace (run (createPoll formData) w) = [EvGetUser]
       ∧ trace (run (updatePoll id formData) w) = [EvGetUser])
  ∧ (validatePollInput (rawQuestion_of formData) (rawOptions_of formData) = [] →
       ∀ user, authenticated w user →
         trace (run (createPoll formData) w)
         = [EvGetUser;
            EvQuery (InsertPoll (user_id user)
                       (sanitizeString (as_string (rawQuestion_of formData)))
                       (sanitizeString <$> rawOptions_of formData))]
             ++ revalidation_after w
                  (InsertPoll (user_id user)
                     (sanitizeString (as_string (rawQuestion_of formData)))
                     (sanitizeString <$> rawOptions_of formData))
         ∧ ∃ rest,
             trace (run (updatePoll id formData) w)
             = [EvGetUser;
                EvQuery (UpdatePolls
                           (sanitizeString (as_string (rawQuestion_of formData)))
                           (sanitizeString <$> rawOptions_of formData)
                           [(col_id, id); (col_user_id, user_id user)])]
                 ++ rest
             ∧ Forall (λ e, is_revalidate e = true) rest)
  ∧ ((∀ user, ¬ authenticated w user) →
       trace (run (deletePoll id) w) = [EvGetUser]
       ∧ trace (run (adminDeletePoll id) w) = [EvGetUser])
  ∧ (∀ user, authenticated w user →
       trace (run (deletePoll id) w)
       = [EvGetUser; EvQuery (DeletePolls [(col_id, id); (col_user_id, user_id user)])]
           ++ revalidation_after w
                (DeletePolls [(col_id, id); (col_user_id, user_id user)])
       ∧ (isAdmin user = false → trace (run (adminDeletePoll id) w) = [EvGetUser])
       ∧ (isAdmin user = true →
            trace (run (adminDeletePoll id) w)
            = [EvGetUser; EvQuery (DeletePolls [(col_id, id)])]
                ++ revalidation_after w (DeletePolls [(col_id, id)])))
  ∧ trace (run (submitVote pollId optionIndex) w)
    = [EvGetUser;
       EvQuery (InsertVote
                  (mkVote pollId (user_id <$> auth_user (w_auth w)) optionIndex))]
  ∧ (auth_user (w_auth w) = None → trace (run getUserPolls w) = [EvGetUser])
  ∧ (∀ user, auth_user (w_auth w) = Some user →
       trace (run getUserPolls w)
       = [EvGetUser;
          EvQuery (SelectPollsNewestFirst [(col_user_id, user_id user)])])
  ∧ steps_in_order (trace (run (createPoll formData) w))
  ∧ steps_in_order (trace (run (updatePoll id formData) w))
  ∧ steps_in_order (trace (run (deletePoll id) w))
  ∧ steps_in_order (trace (run (adminDeletePoll id) w))
  ∧ (∀ r, EvQuery r ∈ trace (run (createPoll formData) w) →
       validatePollInput (rawQuestion_of formData) (rawOptions_of formData) = []
       ∧ ∃ user, authenticated w user)
  ∧ (∀ r, EvQuery r ∈ trace (run (updatePoll id formData) w) →
       validatePollInput (rawQuestion_of formData) (rawOptions_of formData) = []
       ∧ ∃ user, authenticated w user)
  ∧ (∀ r, EvQuery r ∈ trace (run (deletePoll id) w) → ∃ user, authenticated w user)
  ∧ (∀ r, EvQuery r ∈ trace (run (adminDeletePoll id) w) →
       ∃ user, authenticated w user ∧ isAdmin user = true).
Proof.
  destruct (createPoll_steps w formData) as [Hc1 Hc2].
  destruct (updatePoll_steps w id formData) as [Hu1 Hu2].
  destruct (deletePoll_steps w id) as (Hd1 & _ & Hd3).
  destruct (adminDeletePoll_steps w id) as (Ha1 & _ & Ha3).
  split; [|split; [|split; [|split; [|split; [|split; [|split; [|split]]]]]]].
  - intros Hv. by rewrite createPoll_invalid, updatePoll_invalid.
  - intros Hv Hnone. by apply (traces_without_identity w formData id).
  - intros Hv user Hauth.
    rewrite (run_createPoll w user formData Hauth Hv),
      (run_updatePoll w user id formData Hauth Hv). cbv zeta.
    unfold revalidation_after. split.
    + by case_fault.
    + exists []. split; [by case_fault | constructor].
  - intros Hnone. by apply (traces_without_identity w formData id).
  - intros user Hauth. split; [|split].
    + rewrite (run_deletePoll w user id Hauth). cbv zeta.
      unfold revalidation_after. by case_fault.
    + intros Hadmin. by rewrite (run_adminDeletePoll w user id Hauth), Hadmin.
    + intros Hadmin. by rewrite (run_adminDeletePoll w user id Hauth), Hadmin.
  - by rewrite run_submitVote.
  - intros Hnone. simpl. by rewrite Hnone.
  - intros user Huser. rewrite (run_getUserPolls w user Huser). cbv zeta.
    by case_fault.
  - repeat (split; [assumption|]). assumption.
Qed.

(** C8, as stated, fails: a signed-out caller submitting a form with a
    single option gets the validation message, not an authentication error,
    and the session is never consulted. *)
Lemma validation_error_wins_over_authentication :
  unauthenticated signed_out
  ∧ auth_error (w_auth signed_out) = Some (js "Auth session missing!")
  ∧ run (createPoll one_empty_option_form) signed_out =
      mkOutcome (mkResult (Some (js "At least 2 options are required")))
        signed_out []
  ∧ run (updatePoll (js "p1") one_empty_option_form) signed_out =
      mkOutcome (mkResult (Some (js "At least 2 options are required")))
        signed_out [].
Proof. repeat split. Qed.

Lemma handlers_validate_then_authenticate_witness :
  run (createPoll one_empty_option_form) signed_out =
    mkOutcome (mkResult (Some (js "At least 2 options are required")))
      signed_out []
  ∧ run (updatePoll (js "p1") one_empty_option_form) signed_out =
    mkOutcome (mkResult (Some (js "At least 2 options are required")))
      signed_out []
  ∧ trace (run (createPoll good_form) signed_out) = [EvGetUser]
  ∧ trace (run (createPoll good_form) (signed_in alice))
    = [EvGetUser;
       EvQuery (InsertPoll (js "u-alice") (js "Red or blue?") [js "Red"; js "Blue"]);
       EvRevalidate (js "/polls")]
  ∧ trace (run (adminDeletePoll (js "p1")) (signed_in alice)) = [EvGetUser]
  ∧ trace (run (adminDeletePoll (js "p1")) (signed_in root))
    = [EvGetUser; EvQuery (DeletePolls [(col_id, js "p1")]);
       EvRevalidate (js "/polls")].
Proof.
  destruct (handlers_validate_then_authenticate
              signed_out one_empty_option_form (js "p1") (js "p1") 0)
    as (Hinvalid & _).
  destruct (handlers_validate_then_authenticate
              signed_out good_form (js "p1") (js "p1") 0)
    as (_ & Hout & _).
  destruct (handlers_validate_then_authenticate
              (signed_in alice) good_form (js "p1") (js "p1") 0)
    as (_ & _ & Hin & _ & Halice & _).
  destruct (handlers_validate_then_authenticate
              (signed_in root) good_form (js "p1") (js "p1") 0)
    as (_ & _ & _ & _ & Hroot & _).
  destruct Hinvalid as [Hcreate Hupdate]; [by vm_compute|].
  destruct Hout as [Hstop _]; [reflexivity | intros user; discriminate|].
  destruct (Hin eq_refl alice eq_refl) as [Hwritten _].
  destruct (Halice alice eq_refl) as (_ & Hnoadmin & _).
  destruct (Hroot root eq_refl) as (_ & _ & Hadmin).
  split; [exact Hcreate|]. split; [exact Hupdate|]. split; [exact Hstop|].
  split; [exact Hwritten|]. split; [by apply Hnoadmin | by apply Hadmin].
Defined.

(** ** Cache invalidation *)

Ltac after_write :=
  match goal with
  | |- revalidates_after_write _ _ =>
      let pre := fresh "pre" in
      let Ht := fresh "Ht" in
      let Hok := fresh "Hok" in
      intros pre ? ? Ht _ Hok; unfold succeeded in Hok;
      destruct pre as [|? [|? [|? [|? pre]]]]; simplify_eq/=; congruence
  end.

Lemma createPoll_revalidates (w : World) (formData : FormData) :
  revalidates_after_write w (trace (run (createPoll formData) w)).
Proof.
  unfold createPoll. destruct (validatePollInput _ _); run_cases; after_write.
Qed.

Lemma deletePoll_revalidates (w : World) (id : jsstring) :
  revalidates_after_write w (trace (run (deletePoll id) w)).
Proof. run_cases; after_write. Qed.

Lemma adminDeletePoll_revalidates (w : World) (id : jsstring) :
  revalidates_after_write w (trace (run (adminDeletePoll id) w)).
Proof. run_cases; after_write. Qed.

(** [updatePoll] returns right after the backend's answer. *)
Lemma updatePoll_requests_no_revalidation
    (w : World) (pollId : jsstring) (formData : FormData) :
  Forall (λ e, is_revalidate e = false)
    (trace (run (updatePoll pollId formData) w)).
Proof.
  unfold updatePoll. destruct (validatePollInput _ _); run_cases;
    repeat constructor.
Qed.

(** C9, as the code has it.  [createPoll], [deletePoll] and
    [adminDeletePoll] request the invalidation of "/polls" right after every
    write the backend carried out, and [submitVote], whose write goes to the
    votes table, requests no invalidation. *)
Theorem poll_writers_revalidate_listing
    (w : World) (formData : FormData) (id pollId : jsstring) (optionIndex : Z) :
  revalidates_after_write w (trace (run (createPoll formData) w))
  ∧ revalidates_after_write w (trace (run (deletePoll id) w))
  ∧ revalidates_after_write w (trace (run (adminDeletePoll id) w))
  ∧ Forall (λ e, is_revalidate e = false)
      (trace (run (submitVote pollId optionIndex) w)).
Proof.
  split; [apply createPoll_revalidates|].
  split; [apply deletePoll_revalidates|].
  split; [apply adminDeletePoll_revalidates|].
  rewrite run_submitVote. simpl. repeat constructor.
Qed.

(** C9, as stated, fails: a vote the backend accepted is stored and nothing
    is invalidated. *)
Lemma submitVote_success_without_revalidation :
  succeeded (signed_in alice) (InsertVote (mkVote (js "p1") (Some (js "u-alice")) 0))
  ∧ run (submitVote (js "p1") 0) (signed_in alice) =
      mkOutcome (mkResult None)
        (set_votes (signed_in alice) [mkVote (js "p1") (Some (js "u-alice")) 0])
        [EvGetUser;
         EvQuery (InsertVote (mkVote (js "p1") (Some (js "u-alice")) 0))].
Proof. split; reflexivity. Qed.

Lemma createPoll_success_trace :
  trace (run (createPoll good_form) (signed_in alice))
  = [EvGetUser;
     EvQuery (InsertPoll (js "u-alice") (js "Red or blue?") [js "Red"; js "Blue"]);
     EvRevalidate (js "/polls")].
Proof. vm_compute. reflexivity. Qed.

Lemma poll_writers_revalidate_listing_witness :
  drop 2 (trace (run (createPoll good_form) (signed_in alice)))
  = [EvRevalidate (js "/polls")].
Proof.
  destruct (poll_writers_revalidate_listing
              (signed_in alice) good_form (js "p1") (js "p1") 0) as (Hcreate & _).
  apply (Hcreate [EvGetUser]
           (InsertPoll (js "u-alice") (js "Red or blue?") [js "Red"; js "Blue"])).
  - apply createPoll_success_trace.
  - exact I.
  - reflexivity.
Defined.

(** * Beyond the claims *)

(** ** What is written for a poll *)

Lemma sanitizeString_tag_free (input : jsstring) : tag_free (sanitizeString input).
Proof.
  unfold tag_free, sanitizeString, replace_all. intros pre post H.
  by apply replace_go_tag_re_no_tag in H.
Qed.

Lemma sanitizeString_length (input : jsstring) :
  (length (sanitizeString input) ≤ length (trim input))%nat.
Proof.
  unfold sanitizeString, replace_all. apply sublist_length.
  etrans; apply replace_go_sublist.
Qed.

Lemma valid_form_storable (formData : FormData) :
  validatePollInput (rawQuestion_of formData) (rawOptions_of formData) = [] →
  storable (sanitizeString (as_string (rawQuestion_of formData)))
    (sanitizeString <$> rawOptions_of formData).
Proof.
  intros ((q & -> & _ & Hq) & Hcount & Hopts)%validatePollInput_nil.
  unfold storable. simpl. split; [|split; [|split]].
  - etrans; [apply sanitizeString_length | done].
  - apply sanitizeString_tag_free.
  - by rewrite length_fmap.
  - apply Forall_fmap. eapply Forall_impl; [exact Hopts|].
    intros o [_ Ho]. simpl. split; [|apply sanitizeString_tag_free].
    etrans; [apply sanitizeString_length | done].
Qed.

(** X1. Whatever the form and the session, a poll that [createPoll] sends
    to the backend belongs to the authenticated caller and carries sanitized
    text within the limits of the data model: a question of at most 500 code
    units, between 2 and 10 options of at most 200 code units each, and no
    tag in any of them. *)
Theorem createPoll_writes_storable_polls (w : World) (formData : FormData) :
  Forall (λ r, ∃ user question options,
            authenticated w user
            ∧ r = InsertPoll (user_id user) question options
            ∧ storable question options)
    (queries (trace (run (createPoll formData) w)))
  ∧ ∀ user,
      authenticated w user →
      validatePollInput (rawQuestion_of formData) (rawOptions_of formData) = [] →
      ∃ question options,
        queries (trace (run (createPoll formData) w))
        = [InsertPoll (user_id user) question options].
Proof.
  split.
  - destruct (decide (validatePollInput (rawQuestion_of formData)
                        (rawOptions_of formData) = [])) as [Hv|Hv];
      [|rewrite createPoll_invalid by done; constructor].
    pose proof (valid_form_storable formData Hv) as Hst.
    unfold createPoll. rewrite Hv. run_cases; repeat constructor;
      eauto 10 using authenticated_intro.
  - intros user Hauth Hv. rewrite (run_createPoll w user formData Hauth Hv).
    cbv zeta. case_fault; simpl; eauto.
Qed.

(** X2. Likewise every update [updatePoll] sends is filtered on the given
    identifier and the authenticated caller's, and carries sanitized text
    within the limits of the data model. *)
Theorem updatePoll_writes_storable_polls
    (w : World) (pollId : jsstring) (formData : FormData) :
  Forall (λ r, ∃ user question options,
            authenticated w user
            ∧ r = UpdatePolls question options
                    [(col_id, pollId); (col_user_id, user_id user)]
            ∧ storable question options)
    (queries (trace (run (updatePoll pollId formData) w)))
  ∧ ∀ user,
      authenticated w user →
      validatePollInput (rawQuestion_of formData) (rawOptions_of formData) = [] →
      ∃ question options,
        queries (trace (run (updatePoll pollId formData) w))
        = [UpdatePolls question options
             [(col_id, pollId); (col_user_id, user_id user)]].
Proof.
  split.
  - destruct (decide (validatePollInput (rawQuestion_of formData)
                        (rawOptions_of formData) = [])) as [Hv|Hv];
      [|rewrite updatePoll_invalid by done; constructor].
    pose proof (valid_form_storable formData Hv) as Hst.
    unfold updatePoll. rewrite Hv. run_cases; repeat constructor;
      eauto 10 using authenticated_intro.
  - intros user Hauth Hv. rewrite (run_updatePoll w user pollId formData Hauth Hv).
    cbv zeta. case_fault; simpl; eauto.
Qed.

(** ** Text that sanitizes to nothing *)

Lemma re_greedy_Some (p : N → bool) (k : jsstring → option nat)
    (s : jsstring) (n : nat) :
  re_greedy p k s = Some n → ∃ s1 s2 m, s = s1 ++ s2 ∧ k s2 = Some m.
Proof.
  revert n. induction s as [|c s IH]; intros n; [by exists [], [], n|].
  rewrite re_greedy_cons. destruct (p c); [|by exists [], (c :: s), n].
  destruct (re_greedy p k s) as [m|] eqn:Hg; [|by exists [], (c :: s), n].
  intros _. destruct (IH m eq_refl) as (s1 & s2 & m' & -> & Hk).
  by exists (c :: s1), s2, m'.
Qed.

Lemma re_lazy_Some (p : N → bool) (k : jsstring → option nat)
    (s : jsstring) (n : nat) :
  re_lazy p k s = Some n → ∃ s1 s2 m, s = s1 ++ s2 ∧ k s2 = Some m.
Proof.
  revert n. induction s as [|c s IH]; intros n; simpl.
  - destruct (k []) as [m|] eqn:Hk; [|done]. by exists [], [], m.
  - destruct (k (c :: s)) as [m|] eqn:Hk; [by exists [], (c :: s), m|].
    destruct (p c); [|done].
    destruct (re_lazy p k s) as [m|] eqn:Hl; [|done]. intros _.
    destruct (IH m eq_refl) as (s1 & s2 & m' & -> & Hk').
    by exists (c :: s1), s2, m'.
Qed.

(** A match of [pre ++ One p :: post] holds a unit of class [p] followed by
    a match of [post]. *)
Lemma re_exec_One_inside (pre post : list ReItem) (p : N → bool)
    (s : jsstring) (n : nat) :
  re_exec (pre ++ One p :: post) s = Some n →
  ∃ s1 c s2 m, s = s1 ++ c :: s2 ∧ p c = true ∧ re_exec post s2 = Some m.
Proof.
  revert s n. induction pre as [|[q|q|q] pre IH]; intros s n; simpl.
  - destruct s as [|c s]; [done|]. destruct (p c) eqn:Hc; [|done].
    destruct (re_exec post s) as [m|] eqn:Hm; [|done]. intros _.
    by exists [], c, s, m.
  - destruct s as [|c s]; [done|]. destruct (q c); [|done].
    destruct (re_exec (pre ++ One p :: post) s) as [m|] eqn:Hm; [|done].
    intros _. destruct (IH s m Hm) as (s1 & d & s2 & m' & -> & Hd & Hpost).
    by exists (c :: s1), d, s2, m'.
  - intros (s1 & s2 & m & -> & Hk)%re_greedy_Some.
    destruct (IH s2 m Hk) as (t1 & d & t2 & m' & -> & Hd & Hpost).
    exists (s1 ++ t1), d, t2, m'. by rewrite <-app_assoc.
  - intros (s1 & s2 & m & -> & Hk)%re_lazy_Some.
    destruct (IH s2 m Hk) as (t1 & d & t2 & m' & -> & Hd & Hpost).
    exists (s1 ++ t1), d, t2, m'. by rewrite <-app_assoc.
Qed.

(** A script block has text after the [>] of its opening tag. *)
Lemma re_exec_script_re_Some (s : jsstring) (n : nat) :
  re_exec script_re s = Some n → ∃ s1 c s2, s = s1 ++ 0x3E :: c :: s2.
Proof.
  change script_re
    with ((lit_i "<script" ++ [Star (not_chr 0x3E)])
            ++ One (chr 0x3E) :: ([StarLazy dot] ++ lit_i "</script>")).
  intros (s1 & c & s2 & m & -> & Hc & Hm)%re_exec_One_inside.
  apply N.eqb_eq in Hc as ->. destruct s2 as [|d s2]; [done|].
  by exists s1, d, s2.
Qed.

Lemma last_gt_only (body s1 s2 : jsstring) (c : N) :
  0x3E ∉ body → body ++ [0x3E] ≠ s1 ++ 0x3E :: c :: s2.
Proof.
  intros Hbody H. apply Hbody.
  destruct (exists_last (l := c :: s2)) as (t & z & Ht); [done|].
  rewrite Ht in H. change (0x3E :: t ++ [z]) with ((0x3E :: t) ++ [z]) in H.
  rewrite app_assoc in H. apply app_inj_tail in H as [-> _].
  rewrite elem_of_app. right. left.
Qed.

Lemma replace_all_script_re_no_block (s : jsstring) :
  (∀ s1 c s2, s ≠ s1 ++ 0x3E :: c :: s2) → replace_all script_re s = s.
Proof.
  unfold replace_all. induction s as [|c s IH]; intros Hs; [done|].
  cbn [replace_go].
  destruct (re_exec script_re (c :: s)) as [n|] eqn:He.
  - apply re_exec_script_re_Some in He as (s1 & d & s2 & He).
    by destruct (Hs s1 d s2).
  - rewrite IH; [done|]. intros s1 d s2 ->. by apply (Hs (c :: s1) d s2).
Qed.

Lemma find_gt_Some (body rest : jsstring) :
  0x3E ∉ body →
  re_greedy (not_chr 0x3E) (re_exec (lit ">")) (body ++ 0x3E :: rest)
  = Some (S (length body)).
Proof.
  induction body as [|c body IH]; intros Hbody.
  - simpl app. rewrite re_greedy_cons, re_exec_gt. done.
  - apply not_elem_of_cons in Hbody as [Hc Hbody].
    simpl app. rewrite re_greedy_cons, IH by done.
    unfold not_chr. apply N.eqb_neq in Hc. rewrite N.eqb_sym, Hc. done.
Qed.

Lemma replace_go_skip_all (pat : list ReItem) (skip : nat) (s : jsstring) :
  (length s ≤ skip)%nat → replace_go pat skip s = [].
Proof.
  revert skip. induction s as [|c s IH]; intros skip Hlen; [done|].
  simpl in *. destruct skip; [lia|]. apply IH. lia.
Qed.

(** A string that is one tag, whatever stands between its [<] and its [>],
    sanitizes to the empty string. *)
Lemma sanitizeString_single_tag (input body : jsstring) :
  trim input = 0x3C :: body ++ [0x3E] → 0x3E ∉ body → sanitizeString input = [].
Proof.
  intros Ht Hbody. unfold sanitizeString. rewrite Ht.
  rewrite replace_all_script_re_no_block.
  - unfold replace_all. cbn [replace_go].
    rewrite re_exec_tag_re, find_gt_Some by done. simpl.
    apply replace_go_skip_all. rewrite length_app. simpl. lia.
  - intros s1 c s2. apply (last_gt_only (0x3C :: body)).
    apply not_elem_of_cons. done.
Qed.

(** X3. Validation looks at the raw text and sanitization comes after it,
    so a valid form whose question is a single tag (at most 500 code units,
    tag included) is accepted and the poll is written with an empty
    question. *)
Theorem createPoll_stores_empty_question
    (w : World) (user : User) (formData : FormData) (q body : jsstring) :
  authenticated w user →
  rawQuestion_of formData = Some q →
  trim q = 0x3C :: body ++ [0x3E] →
  0x3E ∉ body →
  validatePollInput (rawQuestion_of formData) (rawOptions_of formData) = [] →
  queries (trace (run (createPoll formData) w))
  = [InsertPoll (user_id user) [] (sanitizeString <$> rawOptions_of formData)].
Proof.
  intros Hauth Hq Ht Hbody Hv.
  rewrite (run_createPoll w user formData Hauth Hv). cbv zeta.
  rewrite Hq. simpl as_string. rewrite (sanitizeString_single_tag q body Ht Hbody).
  by case_fault.
Qed.

Lemma createPoll_stores_empty_question_witness :
  authenticated (signed_in alice) alice
  ∧ queries (trace (run (createPoll
      [(js "question", js "<b>"); (js "options", js "Red"); (js "options", js "Blue")])
      (signed_in alice)))
    = [InsertPoll (js "u-alice") [] [js "Red"; js "Blue"]].
Proof.
  split; [reflexivity|].
  apply (createPoll_stores_empty_question (signed_in alice) alice
           [(js "question", js "<b>"); (js "options", js "Red");
            (js "options", js "Blue")] (js "<b>") (js "b"));
    try reflexivity.
  intros Hin. vm_compute in Hin.
  repeat (apply elem_of_cons in Hin as [Hin|Hin]; [discriminate Hin|]).
  by apply elem_of_nil in Hin.
Defined.

(** ** Reading one poll *)

Lemma filter_id_absent (rows : list Poll) (id : jsstring) :
  id ∉ poll_id <$> rows →
  filter (λ p, row_matches [(col_id, id)] p) rows = [].
Proof.
  induction rows as [|p rows IH]; intros Hid; [done|].
  rewrite fmap_cons in Hid. apply not_elem_of_cons in Hid as [Hp Hid].
  rewrite filter_cons, decide_False, IH; [done..|].
  by rewrite row_matches_id_only.
Qed.

Lemma filter_id_unique (rows : list Poll) (p : Poll) :
  NoDup (poll_id <$> rows) → p ∈ rows →
  filter (λ q, row_matches [(col_id, poll_id p)] q) rows = [p].
Proof.
  induction rows as [|q rows IH]; intros Hnd Hp; [by apply elem_of_nil in Hp|].
  rewrite fmap_cons in Hnd. apply NoDup_cons in Hnd as [Hq Hnd].
  rewrite filter_cons. apply elem_of_cons in Hp as [->|Hp].
  - rewrite decide_True by by rewrite row_matches_id_only.
    by rewrite filter_id_absent.
  - rewrite decide_False, IH; [done..|].
    rewrite row_matches_id_only. intros Heq. apply Hq. rewrite Heq.
    by apply list_elem_of_fmap_2.
Qed.

Lemma select_single_unique (not_one_row : jsstring) (rows : list Poll) (p : Poll) :
  NoDup (poll_id <$> rows) → p ∈ rows →
  select_single None not_one_row rows [(col_id, poll_id p)] = mkSingle (Some p) None.
Proof. intros Hnd Hp. unfold select_single. by rewrite filter_id_unique. Qed.

Lemma example_ids_NoDup (session : AuthResponse) :
  NoDup (poll_id <$> w_polls (world_of session)).
Proof. apply (bool_decide_unpack _). by vm_compute. Qed.

(** X4. [getPollById] is a public read: with identifiers unique in the
    table, it returns the poll of the given identifier with a null error,
    whoever owns the poll and whatever the session of the world is. *)
Theorem getPollById_public (not_one_row : jsstring) (w : World) (p : Poll) :
  NoDup (poll_id <$> w_polls w) → p ∈ w_polls w →
  getPollById (single_port None not_one_row w) (poll_id p)
  = mkPollResult (Some p) None.
Proof.
  intros Hnd Hp. unfold getPollById, single_port.
  by rewrite select_single_unique.
Qed.

Lemma getPollById_public_witness :
  getPollById (single_port None (js "no single row") signed_out) (js "p1")
  = mkPollResult (Some bobs_poll) None
  ∧ getPollById (single_port None (js "no single row") (signed_in alice)) (js "p1")
    = mkPollResult (Some bobs_poll) None.
Proof.
  split.
  - apply (getPollById_public (js "no single row") signed_out bobs_poll).
    + apply example_ids_NoDup.
    + left.
  - apply (getPollById_public (js "no single row") (signed_in alice) bobs_poll).
    + apply example_ids_NoDup.
    + left.
Defined.

(** X5. [getPollById] answers with a poll or with an error, never both and
    never neither; a poll it returns is a row of the table with the requested
    identifier; for an identifier no row has, it returns the backend's
    "not one row" error and no poll. *)
Theorem getPollById_poll_or_error
    (refusal : option jsstring) (not_one_row : jsstring) (w : World) (id : jsstring) :
  (poll (getPollById (single_port refusal not_one_row w) id) = None
   ↔ is_Some (poll_error (getPollById (single_port refusal not_one_row w) id)))
  ∧ (∀ p, poll (getPollById (single_port refusal not_one_row w) id) = Some p →
       p ∈ w_polls w ∧ poll_id p = id)
  ∧ (refusal = None → id ∉ poll_id <$> w_polls w →
       getPollById (single_port refusal not_one_row w) id
       = mkPollResult None (Some not_one_row)).
Proof.
  unfold getPollById, single_port, select_single.
  destruct refusal as [e|]; simpl.
  { split; [split; eauto|]. split; [done|]. done. }
  destruct (filter _ (w_polls w)) as [|p [|p' rows]] eqn:Hf; simpl.
  - split; [split; eauto|]. split; [done|]. done.
  - split; [split; [done | by intros [? ?]]|]. split.
    + intros ? [= <-].
      assert (p ∈ filter (λ q, row_matches [(col_id, id)] q) (w_polls w)) as Hin
        by (rewrite Hf; left).
      apply list_elem_of_filter in Hin as [Hm Hin].
      by apply row_matches_id_only in Hm.
    + intros _ Hid. by rewrite filter_id_absent in Hf.
  - split; [split; eauto|]. split; [done|].
    intros _ Hid. by rewrite filter_id_absent in Hf.
Qed.

Lemma getPollById_poll_or_error_witness :
  getPollById (single_port None (js "no single row") (signed_in alice)) (js "p9")
  = mkPollResult None (Some (js "no single row")).
Proof.
  apply (getPollById_poll_or_error None (js "no single row") (signed_in alice)
           (js "p9")); [reflexivity|].
  vm_compute. intros Hin.
  repeat (apply elem_of_cons in Hin as [Hin|Hin]; [discriminate Hin|]).
  by apply elem_of_nil in Hin.
Defined.

(** X6. Create, then read: once [createPoll] has succeeded for a valid form,
    [getPollById] on the identifier the backend gave the new row returns that
    row: the caller as owner, the sanitized question and options, the
    backend's timestamp. *)
Theorem createPoll_then_getPollById
    (not_one_row : jsstring) (w : World) (user : User) (formData : FormData) :
  authenticated w user →
  validatePollInput (rawQuestion_of formData) (rawOptions_of formData) = [] →
  succeeded w (InsertPoll (user_id user)
                 (sanitizeString (as_string (rawQuestion_of formData)))
                 (sanitizeString <$> rawOptions_of formData)) →
  NoDup (poll_id <$> w_polls w) →
  w_fresh_id w ∉ poll_id <$> w_polls w →
  getPollById
    (single_port None not_one_row (world_after (run (createPoll formData) w)))
    (w_fresh_id w)
  = mkPollResult
      (Some (mkPoll (w_fresh_id w) (user_id user)
               (sanitizeString (as_string (rawQuestion_of formData)))
               (sanitizeString <$> rawOptions_of formData)
               (w_now w)))
      None.
Proof.
  intros Hauth Hv Hok Hnd Hfresh.
  rewrite (run_createPoll w user formData Hauth Hv). cbv zeta.
  unfold succeeded in Hok. rewrite Hok. simpl world_after.
  unfold getPollById, single_port. simpl w_polls.
  rewrite (select_single_unique not_one_row _
             (mkPoll (w_fresh_id w) (user_id user)
                (sanitizeString (as_string (rawQuestion_of formData)))
                (sanitizeString <$> rawOptions_of formData) (w_now w))).
  - done.
  - rewrite fmap_app. apply NoDup_app. split; [done|]. split.
    + intros id Hid ->%list_elem_of_singleton. done.
    + apply NoDup_singleton.
  - rewrite elem_of_app. right. left.
Qed.

Lemma createPoll_then_getPollById_witness :
  getPollById
    (single_port None (js "no single row")
       (world_after (run (createPoll good_form) (signed_in alice))))
    (js "p4")
  = mkPollResult
      (Some (mkPoll (js "p4") (js "u-alice") (js "Red or blue?")
               [js "Red"; js "Blue"] 40))
      None.
Proof.
  apply (createPoll_then_getPollById (js "no single row") (signed_in alice)
           alice good_form); try reflexivity.
  - apply example_ids_NoDup.
  - vm_compute. intros Hin.
    repeat (apply elem_of_cons in Hin as [Hin|Hin]; [discriminate Hin|]).
    by apply elem_of_nil in Hin.
Defined.

Lemma update_rows_ids (filters : list (Column * jsstring)) (q : jsstring)
    (o : list jsstring) (rows : list Poll) :
  poll_id <$> ((λ p, if row_matches filters p then update_row q o p else p) <$> rows)
  = poll_id <$> rows.
Proof.
  rewrite <-list_fmap_compose. apply list_fmap_ext. intros i p _. simpl.
  by destruct (row_matches filters p).
Qed.

(** X7. Update, then read: once the owner's [updatePoll] has succeeded for
    a valid form, [getPollById] returns the poll with the sanitized question
    and options of the form and with the identifier, owner and creation time
    it had. *)
Theorem updatePoll_then_getPollById
    (not_one_row : jsstring) (w : World) (user : User) (formData : FormData)
    (p : Poll) :
  authenticated w user →
  validatePollInput (rawQuestion_of formData) (rawOptions_of formData) = [] →
  succeeded w (UpdatePolls
                 (sanitizeString (as_string (rawQuestion_of formData)))
                 (sanitizeString <$> rawOptions_of formData)
                 [(col_id, poll_id p); (col_user_id, user_id user)]) →
  NoDup (poll_id <$> w_polls w) →
  p ∈ w_polls w →
  poll_user_id p = user_id user →
  getPollById
    (single_port None not_one_row
       (world_after (run (updatePoll (poll_id p) formData) w)))
    (poll_id p)
  = mkPollResult
      (Some (mkPoll (poll_id p) (poll_user_id p)
               (sanitizeString (as_string (rawQuestion_of formData)))
               (sanitizeString <$> rawOptions_of formData)
               (poll_created_at p)))
      None.
Proof.
  intros Hauth Hv Hok Hnd Hp Howner.
  rewrite (run_updatePoll w user (poll_id p) formData Hauth Hv). cbv zeta.
  unfold succeeded in Hok. rewrite Hok. simpl world_after.
  unfold getPollById, single_port. simpl w_polls.
  rewrite (select_single_unique not_one_row _
             (update_row (sanitizeString (as_string (rawQuestion_of formData)))
                (sanitizeString <$> rawOptions_of formData) p)).
  - done.
  - by rewrite update_rows_ids.
  - apply list_elem_of_fmap. exists p. split; [|done].
    rewrite (Is_true_true_1 (row_matches _ p)); [done|].
    unfold row_matches. simpl. rewrite Howner.
    by rewrite !bool_decide_eq_true_2.
Qed.

Lemma updatePoll_then_getPollById_witness :
  getPollById
    (single_port None (js "no single row")
       (world_after (run (updatePoll (js "p2") good_form) (signed_in alice))))
    (js "p2")
  = mkPollResult
      (Some (mkPoll (js "p2") (js "u-alice") (js "Red or blue?")
               [js "Red"; js "Blue"] 20))
      None.
Proof.
  apply (updatePoll_then_getPollById (js "no single row") (signed_in alice)
           alice good_form alices_old_poll); try reflexivity.
  - apply example_ids_NoDup.
  - right. left.
Defined.

(** ** Listing after a write *)

Lemma getUserPolls_as_select (w : World) (user : User) :
  auth_user (w_auth w) = Some user →
  succeeded w (SelectPollsNewestFirst [(col_user_id, user_id user)]) →
  polls (returned (run getUserPolls w))
  = merge_sort newest_first
      (filter (λ p, poll_user_id p = user_id user) (w_polls w)).
Proof.
  intros Huser Hok. rewrite (run_getUserPolls w user Huser). cbv zeta.
  unfold succeeded in Hok. rewrite Hok. simpl. f_equal.
  apply list_filter_iff. intros p. apply row_matches_user_only.
Qed.

(** X8. Delete, then list: after the caller's [deletePoll] has succeeded,
    [getUserPolls] returns the caller's polls of before without those of the
    deleted identifier, newest first. *)
Theorem deletePoll_then_getUserPolls (w : World) (user : User) (id : jsstring) :
  authenticated w user →
  succeeded w (DeletePolls [(col_id, id); (col_user_id, user_id user)]) →
  succeeded w (SelectPollsNewestFirst [(col_user_id, user_id user)]) →
  polls (returned (run getUserPolls (world_after (run (deletePoll id) w))))
    ≡ₚ filter (λ p, poll_id p ≠ id)
         (filter (λ p, poll_user_id p = user_id user) (w_polls w))
  ∧ StronglySorted newest_first
      (polls (returned (run getUserPolls (world_after (run (deletePoll id) w)))))
  ∧ Forall (λ p, poll_id p ≠ id)
      (polls (returned (run getUserPolls (world_after (run (deletePoll id) w))))).
Proof.
  intros Hauth Hdel Hsel.
  rewrite (run_deletePoll w user id Hauth). cbv zeta.
  unfold succeeded in Hdel. rewrite Hdel. simpl world_after.
  rewrite (getUserPolls_as_select _ user);
    [|by simpl; rewrite Hauth | done]. simpl w_polls.
  assert (merge_sort newest_first
            (filter (λ p, poll_user_id p = user_id user)
               (filter (λ p, ¬ row_matches [(col_id, id); (col_user_id, user_id user)] p)
                  (w_polls w)))
          ≡ₚ filter (λ p, poll_id p ≠ id)
               (filter (λ p, poll_user_id p = user_id user) (w_polls w))) as Hperm.
  { rewrite merge_sort_Permutation, !list_filter_filter.
    erewrite list_filter_iff; [done|]. intros p. simpl.
    unfold row_matches. simpl. rewrite andb_true_r, andb_True, !bool_decide_spec.
    split; [intros [? ?] | intros [? ?]]; split; auto.
    intros [? ?]. auto. }
  split; [done|]. split; [apply StronglySorted_merge_sort; apply _|].
  rewrite Hperm. apply Forall_forall. intros p Hp.
  by apply list_elem_of_filter in Hp as [? _].
Qed.

Lemma deletePoll_then_getUserPolls_witness :
  polls (returned (run getUserPolls
     (world_after (run (deletePoll (js "p2")) (signed_in alice)))))
  = [alices_new_poll]
  ∧ Forall (λ p, poll_id p ≠ js "p2")
      (polls (returned (run getUserPolls
         (world_after (run (deletePoll (js "p2")) (signed_in alice)))))).
Proof.
  split; [by vm_compute|].
  apply (deletePoll_then_getUserPolls (signed_in alice) alice (js "p2"));
    reflexivity.
Defined.

Lemma StronglySorted_head_max {A} (R : relation A) (l : list A) (h x : A) :
  StronglySorted R l → head l = Some h → x ∈ l → x = h ∨ R h x.
Proof.
  intros Hs Hh Hx. destruct l as [|h' l]; [done|]. injection Hh as ->.
  apply elem_of_cons in Hx as [->|Hx]; [by left|]. right.
  apply StronglySorted_inv in Hs as [_ Hall].
  rewrite Forall_forall in Hall. by apply Hall.
Qed.

(** X9. Create, then list: after [createPoll] has succeeded, the new poll
    is in the creator's listing, and it is the first entry when the backend's
    timestamp for it is later than those of the creator's other polls. *)
Theorem createPoll_then_getUserPolls
    (w : World) (user : User) (formData : FormData) :
  authenticated w user →
  validatePollInput (rawQuestion_of formData) (rawOptions_of formData) = [] →
  succeeded w (InsertPoll (user_id user)
                 (sanitizeString (as_string (rawQuestion_of formData)))
                 (sanitizeString <$> rawOptions_of formData)) →
  succeeded w (SelectPollsNewestFirst [(col_user_id, user_id user)]) →
  polls (returned (run getUserPolls (world_after (run (createPoll formData) w))))
    ≡ₚ mkPoll (w_fresh_id w) (user_id user)
          (sanitizeString (as_string (rawQuestion_of formData)))
          (sanitizeString <$> rawOptions_of formData) (w_now w)
        :: filter (λ p, poll_user_id p = user_id user) (w_polls w)
  ∧ ((∀ p, p ∈ w_polls w → poll_user_id p = user_id user →
         (poll_created_at p < w_now w)%Z) →
       head (polls (returned
               (run getUserPolls (world_after (run (createPoll formData) w)))))
       = Some (mkPoll (w_fresh_id w) (user_id user)
                 (sanitizeString (as_string (rawQuestion_of formData)))
                 (sanitizeString <$> rawOptions_of formData) (w_now w))).
Proof.
  intros Hauth Hv Hins Hsel.
  rewrite (run_createPoll w user formData Hauth Hv). cbv zeta.
  unfold succeeded in Hins. rewrite Hins. simpl world_after.
  rewrite (getUserPolls_as_select _ user);
    [|by simpl; rewrite Hauth | done]. simpl w_polls.
  set (new := mkPoll _ _ _ _ _).
  assert (merge_sort newest_first
            (filter (λ p, poll_user_id p = user_id user) (w_polls w ++ [new]))
          ≡ₚ new :: filter (λ p, poll_user_id p = user_id user) (w_polls w))
    as Hperm.
  { rewrite merge_sort_Permutation, filter_app, filter_cons, decide_True by done.
    rewrite filter_nil. by rewrite (comm (++)). }
  split; [done|]. intros Hlater.
  destruct (merge_sort _ _) as [|h l] eqn:Hsort.
  { apply symmetry, Permutation_nil_r in Hperm. done. }
  simpl. f_equal.
  assert (StronglySorted newest_first (h :: l)) as Hs.
  { rewrite <-Hsort. apply StronglySorted_merge_sort; apply _. }
  assert (h ∈ new :: filter (λ p, poll_user_id p = user_id user) (w_polls w))
    as Hh by (rewrite <-Hperm; left).
  assert (new ∈ h :: l) as Hnew by (rewrite Hperm; left).
  destruct (StronglySorted_head_max _ _ h new Hs eq_refl Hnew) as [->|Hle];
    [done|].
  apply elem_of_cons in Hh as [->|Hh]; [done|].
  apply list_elem_of_filter in Hh as [Hown Hh].
  specialize (Hlater h Hh Hown). unfold newest_first in Hle. simpl in Hle. lia.
Qed.

Lemma createPoll_then_getUserPolls_witness :
  head (polls (returned
     (run getUserPolls (world_after (run (createPoll good_form) (signed_in alice))))))
  = Some (mkPoll (js "p4") (js "u-alice") (js "Red or blue?")
            [js "Red"; js "Blue"] 40).
Proof.
  apply (createPoll_then_getUserPolls (signed_in alice) alice good_form);
    try reflexivity.
  intros p Hp Hown. vm_compute in Hp.
  repeat (apply elem_of_cons in Hp as [->|Hp]; [by vm_compute|]).
  by apply elem_of_nil in Hp.
Defined.

(** ** A mutation that matches no row *)

(** X10. The outcome of a mutation that matched nothing is not told apart
    from one that did: when the identifier names no poll of the authenticated
    caller (another user's poll, or none at all), [deletePoll] and, for a
    valid form, [updatePoll] still return a null error, with the table left
    as it was, and [deletePoll] still invalidates the listing. *)
Theorem mutation_of_no_row_reports_success
    (w : World) (user : User) (id : jsstring) (formData : FormData) :
  authenticated w user →
  (∀ p, p ∈ w_polls w → poll_id p = id → poll_user_id p ≠ user_id user) →
  (∀ r, w_fault w r = None) →
  validatePollInput (rawQuestion_of formData) (rawOptions_of formData) = [] →
  returned (run (deletePoll id) w) = mkResult None
  ∧ w_polls (world_after (run (deletePoll id) w)) = w_polls w
  ∧ EvRevalidate (js "/polls") ∈ trace (run (deletePoll id) w)
  ∧ returned (run (updatePoll id formData) w) = mkResult None
  ∧ w_polls (world_after (run (updatePoll id formData) w)) = w_polls w.
Proof.
  intros Hauth Hnone Hok Hv.
  assert (∀ p, p ∈ w_polls w →
            ¬ row_matches [(col_id, id); (col_user_id, user_id user)] p) as Hzero.
  { intros p Hp Hm. apply (Hnone p Hp).
    - apply row_matches_id with (filters := [(col_id, id); (col_user_id, user_id user)]);
        [left | done].
    - apply row_matches_owner
        with (filters := [(col_id, id); (col_user_id, user_id user)]);
        [right; left | done]. }
  rewrite (run_deletePoll w user id Hauth),
    (run_updatePoll w user id formData Hauth Hv). cbv zeta.
  rewrite !Hok. simpl.
  rewrite delete_zero_rows, update_zero_rows by done.
  repeat split. right; right; left.
Qed.

Lemma mutation_of_no_row_reports_success_witness :
  returned (run (deletePoll (js "p1")) (signed_in alice)) = mkResult None
  ∧ w_polls (world_after (run (deletePoll (js "p1")) (signed_in alice)))
    = w_polls (signed_in alice)
  ∧ EvRevalidate (js "/polls") ∈ trace (run (deletePoll (js "p1")) (signed_in alice))
  ∧ returned (run (updatePoll (js "p1") good_form) (signed_in alice)) = mkResult None
  ∧ w_polls (world_after (run (updatePoll (js "p1") good_form) (signed_in alice)))
    = w_polls (signed_in alice).
Proof.
  apply (mutation_of_no_row_reports_success (signed_in alice) alice (js "p1")
           good_form); try reflexivity.
  intros p Hp Hid. vm_compute in Hp.
  repeat (apply elem_of_cons in Hp as [->|Hp]; [by vm_compute|]).
  by apply elem_of_nil in Hp.
Defined.

(** ** The option fields of the forms *)

Lemma filter_by_index_all {A} (keep : nat → bool) (l : list A) :
  (∀ i, keep i = true) → filter_by_index keep l = l.
Proof.
  unfold filter_by_index. revert keep.
  induction l as [|x l IH]; intros keep Hkeep; [done|].
  rewrite imap_cons. simpl. rewrite Hkeep. simpl. f_equal.
  apply (IH (keep ∘ S)). intros i. apply Hkeep.
Qed.

(** Dropping index [idx] by [filter] is the deletion of that position. *)
Lemma filter_by_index_delete {A} (idx : nat) (l : list A) :
  filter_by_index (λ i, negb (i =? idx)%nat) l = delete idx l.
Proof.
  revert idx. induction l as [|x l IH]; intros idx; [done|].
  unfold filter_by_index. rewrite imap_cons. destruct idx as [|idx]; simpl.
  - apply (filter_by_index_all (λ i, negb (S i =? 0)%nat)). done.
  - f_equal. apply (IH idx).
Qed.

Lemma removeOption_length (idx : nat) (opts : list jsstring) :
  (2 ≤ length opts)%nat → (2 ≤ length (removeOption opts idx opts))%nat.
Proof.
  intros Hlen. unfold removeOption.
  destruct (2 <? length opts)%nat eqn:H2; [|done].
  apply Nat.ltb_lt in H2. rewrite filter_by_index_delete.
  destruct (decide (idx < length opts)%nat) as [Hin|Hout].
  - rewrite length_delete by by apply lookup_lt_is_Some. lia.
  - rewrite delete_take_drop, take_ge, drop_ge, app_nil_r by lia. done.
Qed.

Lemma option_step_length (opts : list jsstring) (e : OptionEvent) :
  (2 ≤ length opts)%nat → (2 ≤ length (option_step opts e))%nat.
Proof.
  intros Hlen. destruct e as [idx value| |idx]; simpl.
  - unfold handleOptionChange. by rewrite length_imap.
  - unfold addOption. rewrite length_app. lia.
  - by apply removeOption_length.
Qed.

(** X11. A form that starts with at least two option fields never shows
    fewer than two, whatever the user types, adds and removes; PollCreateForm
    starts with two. *)
Theorem option_fields_never_below_two
    (initial : list jsstring) (events : list OptionEvent) :
  (2 ≤ length initial)%nat →
  (2 ≤ length (options_after initial events))%nat.
Proof.
  unfold options_after. revert initial.
  induction events as [|e events IH]; intros initial Hlen; [done|].
  simpl. by apply IH, option_step_length.
Qed.

Lemma option_fields_never_below_two_witness :
  (2 ≤ length (options_after PollCreateForm_initial_options
                 [AddClicked; RemoveClicked 0; RemoveClicked 0; RemoveClicked 1;
                  Typed 0 (js "Red")]))%nat.
Proof.
  apply (option_fields_never_below_two PollCreateForm_initial_options).
  simpl. lia.
Defined.

Lemma handleOptionChange_insert
    (idx : nat) (value : jsstring) (opts : list jsstring) :
  handleOptionChange idx value opts = <[idx:=value]> opts.
Proof.
  unfold handleOptionChange. revert idx.
  induction opts as [|o opts IH]; intros idx; [done|].
  rewrite imap_cons. destruct idx as [|idx]; simpl.
  - f_equal. rewrite (imap_ext _ (const id)) by done.
    rewrite imap_const. apply list_fmap_id.
  - f_equal. apply (IH idx).
Qed.

(** X12. Typing into field [idx] replaces the option at that position and
    nothing else: the number of fields and the other options are as before,
    and an index past the last field changes nothing. *)
Theorem handleOptionChange_replaces_one
    (idx : nat) (value : jsstring) (opts : list jsstring) :
  length (handleOptionChange idx value opts) = length opts
  ∧ (∀ j, j ≠ idx → handleOptionChange idx value opts !! j = opts !! j)
  ∧ ((idx < length opts)%nat →
       handleOptionChange idx value opts !! idx = Some value)
  ∧ ((length opts ≤ idx)%nat → handleOptionChange idx value opts = opts).
Proof.
  rewrite handleOptionChange_insert. split; [apply length_insert|].
  split; [intros j Hj; by apply list_lookup_insert_ne|].
  split; [apply list_lookup_insert_eq | apply list_insert_ge].
Qed.

Lemma handleOptionChange_replaces_one_witness :
  handleOptionChange 1 (js "Blue") [js "Red"; js ""; js "Green"] !! 1%nat
  = Some (js "Blue")
  ∧ handleOptionChange 3 (js "Blue") [js "Red"; js ""; js "Green"]
    = [js "Red"; js ""; js "Green"].
Proof.
  destruct (handleOptionChange_replaces_one 1 (js "Blue")
              [js "Red"; js ""; js "Green"]) as (_ & _ & Hin & _).
  destruct (handleOptionChange_replaces_one 3 (js "Blue")
              [js "Red"; js ""; js "Green"]) as (_ & _ & _ & Hout).
  split; [apply Hin | apply Hout]; simpl; lia.
Defined.

(** X13. Remove undoes add: in a form with at least two option fields,
    adding a field and removing it again gives back the options as they
    were; in general a click on Remove takes out exactly the field clicked
    when there are more than two, and does nothing otherwise. *)
Theorem removeOption_after_addOption (opts : list jsstring) (idx : nat) :
  ((2 ≤ length opts)%nat →
     removeOption (addOption opts) (length opts) (addOption opts) = opts)
  ∧ removeOption opts idx opts
    = if (2 <? length opts)%nat then delete idx opts else opts.
Proof.
  split.
  - intros Hlen. unfold removeOption, addOption.
    rewrite length_app. simpl.
    destruct (2 <? length opts + 1)%nat eqn:H2;
      [|apply Nat.ltb_ge in H2; lia].
    rewrite filter_by_index_delete, delete_take_drop.
    rewrite take_app_length, drop_ge, app_nil_r; [done|].
    rewrite length_app. simpl. lia.
  - unfold removeOption. by rewrite filter_by_index_delete.
Qed.

Lemma removeOption_after_addOption_witness :
  removeOption (addOption [js "Red"; js "Blue"]) 2 (addOption [js "Red"; js "Blue"])
  = [js "Red"; js "Blue"].
Proof.
  destruct (removeOption_after_addOption [js "Red"; js "Blue"] 0) as [Hundo _].
  apply Hundo. simpl. lia.
Defined.

(** ** What EditPollForm submits *)

Lemma formData_getAll_app (name : jsstring) (fd1 fd2 : FormData) :
  formData_getAll name (fd1 ++ fd2)
  = formData_getAll name fd1 ++ formData_getAll name fd2.
Proof. unfold formData_getAll. by rewrite filter_app, fmap_app. Qed.

Lemma formData_getAll_delete (name other : jsstring) (fd : FormData) :
  formData_getAll name (formData_delete other fd)
  = if decide (name = other) then [] else formData_getAll name fd.
Proof.
  unfold formData_getAll, formData_delete. rewrite list_filter_filter.
  destruct (decide (name = other)) as [->|Hne].
  - rewrite (list_filter_iff _ (λ _, False)); [|intros e; tauto].
    by induction fd as [|e fd IH]; [|rewrite filter_cons, decide_False by tauto].
  - f_equal. apply list_filter_iff. intros e. split; [tauto|].
    intros He. split; [done|]. congruence.
Qed.

Lemma formData_getAll_set (name other value : jsstring) (fd : FormData) :
  formData_getAll name (formData_set other value fd)
  = if decide (name = other) then [value] else formData_getAll name fd.
Proof.
  induction fd as [|[k v] fd IH]; simpl.
  - unfold formData_getAll. rewrite filter_cons. simpl.
    destruct (decide (other = name)), (decide (name = other)); done || congruence.
  - destruct (decide (k = other)) as [->|Hk].
    + change ((other, value) :: formData_delete other fd)
        with ([(other, value)] ++ formData_delete other fd).
      rewrite formData_getAll_app, formData_getAll_delete.
      unfold formData_getAll at 1. rewrite filter_cons. simpl.
      destruct (decide (other = name)), (decide (name = other));
        try congruence; [by rewrite app_nil_r|].
      unfold formData_getAll. rewrite filter_cons, decide_False; [done|].
      simpl. congruence.
    + change ((k, v) :: formData_set other value fd)
        with ([(k, v)] ++ formData_set other value fd).
      rewrite formData_getAll_app, IH.
      destruct (decide (name = other)) as [->|Hne].
      * unfold formData_getAll. rewrite filter_cons, decide_False; done.
      * change ((k, v) :: fd) with ([(k, v)] ++ fd).
        by rewrite formData_getAll_app.
Qed.

Lemma formData_getAll_appends (name field : jsstring) (values : list jsstring)
    (fd : FormData) :
  formData_getAll name
    (foldl (λ fd v, formData_append field v fd) fd values)
  = formData_getAll name fd ++ (if decide (name = field) then values else []).
Proof.
  revert fd. induction values as [|v values IH]; intros fd; simpl.
  - destruct (decide (name = field)); by rewrite app_nil_r.
  - rewrite IH. unfold formData_append. rewrite formData_getAll_app.
    rewrite <-app_assoc. f_equal. unfold formData_getAll at 1.
    rewrite filter_cons. simpl.
    destruct (decide (field = name)), (decide (name = field));
      done || congruence.
Qed.

Lemma EditPollForm_formData_fields
    (question : jsstring) (options : list jsstring) (formData : FormData) :
  rawQuestion_of (EditPollForm_formData question options formData) = Some question
  ∧ formData_getAll (js "options")
      (EditPollForm_formData question options formData) = options
  ∧ rawOptions_of (EditPollForm_formData question options formData)
    = filter (λ o, o ≠ []) options.
Proof.
  unfold EditPollForm_formData, rawQuestion_of, rawOptions_of, formData_get.
  rewrite !formData_getAll_appends, !formData_getAll_delete, !formData_getAll_set.
  assert (js "question" ≠ js "options") as Hne by (intros H; by vm_compute in H).
  repeat (rewrite (decide_False (P := js "question" = js "options")) by done).
  repeat (rewrite (decide_True (P := js "question" = js "question")) by done).
  repeat (rewrite (decide_True (P := js "options" = js "options")) by done).
  split; [done|]. split; [done|]. simpl.
  apply list_filter_iff. intros o. apply Boolean_nonempty.
Qed.

(** X14. Whatever entries the submitted form data held (stale inputs,
    duplicates, fields of other names), after EditPollForm has prepared it
    the handler reads the question and the options of the component's state:
    the question field is the state's question, the option fields are the
    state's options in order, and [updatePoll] does the same for any two
    submissions of the same state. *)
Theorem EditPollForm_submits_its_state
    (question : jsstring) (options : list jsstring) (pollId : jsstring)
    (formData formData' : FormData) :
  formData_get (js "question") (EditPollForm_formData question options formData)
    = Some question
  ∧ formData_getAll (js "options")
      (EditPollForm_formData question options formData) = options
  ∧ updatePoll pollId (EditPollForm_formData question options formData)
    = updatePoll pollId (EditPollForm_formData question options formData').
Proof.
  destruct (EditPollForm_formData_fields question options formData)
    as (Hq & Ho & Hr).
  destruct (EditPollForm_formData_fields question options formData')
    as (Hq' & _ & Hr').
  split; [done|]. split; [done|].
  unfold updatePoll. by rewrite Hq, Hq', Hr, Hr'.
Qed.

(** ** The numbers in the option messages *)

Lemma filter_lookup_index {A} (P : A → Prop) `{!∀ x, Decision (P x)}
    (l : list A) (j : nat) (x : A) :
  l !! j = Some x → P x →
  filter P l !! length (filter P (take j l)) = Some x.
Proof.
  revert j. induction l as [|y l IH]; intros j Hj Hx; [done|].
  destruct j as [|j]; simpl in *.
  - injection Hj as ->. by rewrite filter_cons, decide_True.
  - rewrite !filter_cons. destruct (decide (P y)); simpl; by apply IH.
Qed.

(** X15. The number in "Option N cannot be empty" counts the fields that
    are left once the empty ones are dropped, not the fields of the form: a
    blank (non-empty, white space only) option in field [j] is reported under
    one plus the number of non-empty option fields before it, and the form is
    rejected with the joined messages without any call. *)
Theorem option_numbers_skip_empty_fields
    (w : World) (formData : FormData) (j : nat) (o : jsstring) :
  formData_getAll (js "options") formData !! j = Some o →
  o ≠ [] → all_whitespace o →
  option_empty_msg
    (length (filter (λ x, x ≠ [])
               (take j (formData_getAll (js "options") formData))))
    ∈ validatePollInput (rawQuestion_of formData) (rawOptions_of formData)
  ∧ run (createPoll formData) w =
      mkOutcome (mkResult (Some (join (js ", ")
        (validatePollInput (rawQuestion_of formData) (rawOptions_of formData)))))
        w [].
Proof.
  intros Hj Ho Hw.
  assert (option_empty_msg
            (length (filter (λ x, x ≠ [])
                       (take j (formData_getAll (js "options") formData))))
          ∈ validatePollInput (rawQuestion_of formData) (rawOptions_of formData))
    as Hin.
  { apply option_empty_msg_elem_of. exists o. split; [|by apply trim_nil].
    assert (rawOptions_of formData
            = filter (λ x, x ≠ []) (formData_getAll (js "options") formData)) as ->.
    { unfold rawOptions_of. apply list_filter_iff. intros x.
      apply Boolean_nonempty. }
    by apply filter_lookup_index. }
  split; [done|]. rewrite createPoll_invalid; [done|].
  intros Hnil. rewrite Hnil in Hin. by apply elem_of_nil in Hin.
Qed.

Lemma option_numbers_skip_empty_fields_witness :
  option_empty_msg 1
    ∈ validatePollInput
        (rawQuestion_of [(js "question", js "Red or blue?"); (js "options", js "Red");
                         (js "options", js ""); (js "options", js " ")])
        (rawOptions_of [(js "question", js "Red or blue?"); (js "options", js "Red");
                        (js "options", js ""); (js "options", js " ")])
  ∧ run (createPoll [(js "question", js "Red or blue?"); (js "options", js "Red");
                     (js "options", js ""); (js "options", js " ")]) signed_out =
      mkOutcome (mkResult (Some (js "Option 2 cannot be empty"))) signed_out [].
Proof.
  apply (option_numbers_skip_empty_fields signed_out
           [(js "question", js "Red or blue?"); (js "options", js "Red");
            (js "options", js ""); (js "options", js " ")] 2 (js " ")).
  - reflexivity.
  - discriminate.
  - repeat constructor.
Defined.

(** ** What the forms show *)

Lemma run_bind {A B} (p : Prog A) (f : A → Prog B) (w : World) :
  run (Prog_bind p f) w =
  mkOutcome
    (returned (run (f (returned (run p w))) (world_after (run p w))))
    (world_after (run (f (returned (run p w))) (world_after (run p w))))
    (trace (run p w) ++ trace (run (f (returned (run p w))) (world_after (run p w)))).
Proof.
  revert w. induction p as [a|k IH|r k IH|path k IH]; intros w; simpl.
  - by destruct (run (f a) w).
  - rewrite IH. done.
  - destruct (backend w r) as [resp w']. rewrite IH. done.
  - rewrite IH. done.
Qed.

Lemma validation_messages_nonempty (question : option jsstring)
    (options : list jsstring) (m : jsstring) :
  m ∈ validatePollInput question options → m ≠ [].
Proof.
  unfold validatePollInput. rewrite !elem_of_app, list_elem_of_join.
  intros [Hq|[Hc|(l & Hl & Hin)]] ->.
  - by apply question_errors_head in Hq.
  - by apply count_errors_head in Hc as [Hc|Hc].
  - apply elem_of_lookup_imap in Hin as (i & o & -> & _).
    unfold option_errors in Hl.
    destruct (falsy o || _); [by apply list_elem_of_singleton in Hl|].
    destruct (200 <? _)%nat; [by apply list_elem_of_singleton in Hl|].
    by apply elem_of_nil in Hl.
Qed.

Lemma join_nonempty (sep : jsstring) (l : list jsstring) :
  l ≠ [] → (∀ m, m ∈ l → m ≠ []) → join sep l ≠ [].
Proof.
  destruct l as [|x l]; [done|]. intros _ Hall.
  assert (x ≠ []) as Hx by (apply Hall; left).
  destruct l; simpl; [done|]. by destruct x.
Qed.

(** X16. A form that fails validation is never taken for a success: the
    joined messages are a non-empty string, so PollCreateForm shows them as
    its error, shows no success line and schedules no redirect, and nothing
    has been called. *)
Theorem PollCreateForm_shows_validation_errors (w : World) (formData : FormData) :
  validatePollInput (rawQuestion_of formData) (rawOptions_of formData) ≠ [] →
  run (PollCreateForm_action formData) w =
    mkOutcome
      (mkFormView
         (Some (join (js ", ")
            (validatePollInput (rawQuestion_of formData) (rawOptions_of formData))))
         false None)
      w [].
Proof.
  intros Hv. unfold PollCreateForm_action.
  rewrite run_bind, createPoll_invalid by done. simpl.
  unfold show_result, truthy. simpl.
  rewrite (Is_true_true_1 (Boolean _)); [done|].
  apply Boolean_nonempty, join_nonempty; [done|].
  apply validation_messages_nonempty.
Qed.

Lemma PollCreateForm_shows_validation_errors_witness :
  run (PollCreateForm_action one_empty_option_form) signed_out =
    mkOutcome
      (mkFormView (Some (js "At least 2 options are required")) false None)
      signed_out [].
Proof.
  apply (PollCreateForm_shows_validation_errors signed_out one_empty_option_form).
  vm_compute. discriminate.
Defined.

(** X17. PollCreateForm takes every falsy [error] for success, the empty
    string included.  So its success line is tied to a written poll only as
    long as the collaborators' error messages are non-empty: under that
    condition, a form showing success means the poll was inserted for the
    authenticated caller and the listing invalidated. *)
Theorem PollCreateForm_success_means_written (w : World) (formData : FormData) :
  auth_error (w_auth w) ≠ Some [] →
  (∀ r, w_fault w r ≠ Some []) →
  view_success (returned (run (PollCreateForm_action formData) w)) = true →
  ∃ user question options,
    authenticated w user
    ∧ trace (run (PollCreateForm_action formData) w)
      = [EvGetUser; EvQuery (InsertPoll (user_id user) question options);
         EvRevalidate (js "/polls")]
    ∧ w_polls (world_after (run (PollCreateForm_action formData) w))
      = w_polls w
          ++ [mkPoll (w_fresh_id w) (user_id user) question options (w_now w)].
Proof.
  intros Hauth Hfault. unfold PollCreateForm_action. rewrite run_bind.
  destruct (decide (validatePollInput (rawQuestion_of formData)
                      (rawOptions_of formData) = [])) as [Hv|Hv].
  - unfold createPoll. rewrite Hv. run_cases; unfold show_result, truthy; simpl.
    + match goal with H : auth_error (w_auth w) = Some ?e |- _ =>
        destruct e as [|c e]; [done|] end. done.
    + match goal with H : w_fault w ?r = Some ?e |- _ =>
        destruct e as [|c e]; [by destruct (Hfault r)|] end. done.
    + intros _. eexists _, _, _. split; [by apply authenticated_intro|]. done.
    + done.
  - rewrite createPoll_invalid by done. simpl. unfold show_result, truthy. simpl.
    rewrite (Is_true_true_1 (Boolean _)); [done|].
    apply Boolean_nonempty, join_nonempty; [done|].
    apply validation_messages_nonempty.
Qed.

Lemma PollCreateForm_success_means_written_witness :
  ∃ user question options,
    authenticated (signed_in alice) user
    ∧ trace (run (PollCreateForm_action good_form) (signed_in alice))
      = [EvGetUser; EvQuery (InsertPoll (user_id user) question options);
         EvRevalidate (js "/polls")]
    ∧ w_polls (world_after (run (PollCreateForm_action good_form) (signed_in alice)))
      = w_polls (signed_in alice)
          ++ [mkPoll (w_fresh_id (signed_in alice)) (user_id user) question options
                (w_now (signed_in alice))].
Proof.
  apply (PollCreateForm_success_means_written (signed_in alice) good_form);
    (discriminate || reflexivity).
Defined.

(** X18. EditPollForm tells its user "updated" for an edit that changed
    nothing: when the poll being edited is not one of the authenticated
    caller's and the state is a valid poll, the action ends with the success
    line shown and the redirect to the listing scheduled, and the polls table
    is as it was. *)
Theorem EditPollForm_success_without_change
    (w : World) (user : User) (poll_id_ question : jsstring)
    (options : list jsstring) (formData : FormData) :
  authenticated w user →
  (∀ p, p ∈ w_polls w → poll_id p = poll_id_ → poll_user_id p ≠ user_id user) →
  (∀ r, w_fault w r = None) →
  validatePollInput (Some question) (filter (λ o, o ≠ []) options) = [] →
  returned (run (EditPollForm_action poll_id_ question options formData) w)
  = mkFormView None true (Some (js "/polls"))
  ∧ w_polls (world_after
               (run (EditPollForm_action poll_id_ question options formData) w))
    = w_polls w.
Proof.
  intros Hauth Hnone Hok Hv.
  destruct (EditPollForm_formData_fields question options formData)
    as (Hq & _ & Ho).
  unfold EditPollForm_action. rewrite run_bind.
  rewrite (run_updatePoll w user poll_id_ _ Hauth) by (by rewrite Hq, Ho).
  cbv zeta. rewrite Hok. simpl. split; [done|].
  apply update_zero_rows. intros p Hp Hm. apply (Hnone p Hp).
  - apply row_matches_id
      with (filters := [(col_id, poll_id_); (col_user_id, user_id user)]);
      [left | done].
  - apply row_matches_owner
      with (filters := [(col_id, poll_id_); (col_user_id, user_id user)]);
      [right; left | done].
Qed.

Lemma EditPollForm_success_without_change_witness :
  returned (run (EditPollForm_action (js "p1") (js "Tea?") [js "Yes"; js "No"] [])
              (signed_in alice))
  = mkFormView None true (Some (js "/polls"))
  ∧ w_polls (world_after
       (run (EditPollForm_action (js "p1") (js "Tea?") [js "Yes"; js "No"] [])
          (signed_in alice)))
    = w_polls (signed_in alice).
Proof.
  apply (EditPollForm_success_without_change (signed_in alice) alice (js "p1")
           (js "Tea?") [js "Yes"; js "No"] []); try reflexivity.
  intros p Hp Hid. vm_compute in Hp.
  repeat (apply elem_of_cons in Hp as [->|Hp]; [by vm_compute|]).
  by apply elem_of_nil in Hp.
Defined.

(** ** The admin page *)

Lemma StronglySorted_filter {A} (R : relation A) (P : A → Prop)
    `{!∀ x, Decision (P x)} (l : list A) :
  StronglySorted R l → StronglySorted R (filter P l).
Proof.
  induction 1 as [|x l Hs IH Hall]; [constructor|].
  rewrite filter_cons. destruct (decide (P x)); [|done].
  constructor; [done|]. rewrite Forall_forall in Hall |- *.
  intros y [_ Hy]%list_elem_of_filter. by apply Hall.
Qed.

Lemma select_without_filter (rows : list Poll) :
  filter (λ p, row_matches [] p) rows = rows.
Proof.
  induction rows as [|p rows IH]; [done|].
  rewrite filter_cons, decide_True by (by unfold row_matches).
  by rewrite IH.
Qed.

(** X19. After [fetchAllPolls] the admin page shows the polls table,
    newest first, and is no longer loading; if the backend reports an error
    the list shown stays what it was. *)
Theorem fetchAllPolls_shows_the_table (w : World) (page : AdminPage) :
  (succeeded w (SelectPollsNewestFirst []) →
     page_in_sync (returned (run (fetchAllPolls page) w)) w)
  ∧ (¬ succeeded w (SelectPollsNewestFirst []) →
       page_polls (returned (run (fetchAllPolls page) w)) = page_polls page)
  ∧ page_loading (returned (run (fetchAllPolls page) w)) = false
  ∧ world_after (run (fetchAllPolls page) w) = w.
Proof.
  unfold succeeded, page_in_sync. simpl. unfold backend.
  destruct (w_fault w _) as [e|] eqn:Hf; simpl.
  - repeat split; done.
  - split; [|done]. intros _. split.
    + by rewrite merge_sort_Permutation, select_without_filter.
    + apply StronglySorted_merge_sort; apply _.
Qed.

Lemma fetchAllPolls_shows_the_table_witness :
  page_in_sync
    (returned (run (fetchAllPolls (mkAdminPage [] true None [])) (signed_in root)))
    (signed_in root)
  ∧ page_polls
      (returned (run (fetchAllPolls (mkAdminPage [] true None [])) (signed_in root)))
    = [alices_new_poll; alices_old_poll; bobs_poll].
Proof.
  split; [|by vm_compute].
  apply (fetchAllPolls_shows_the_table (signed_in root) (mkAdminPage [] true None [])).
  reflexivity.
Defined.

Lemma run_handleDelete_admin (w : World) (user : User) (polls : list Poll)
    (pollId : jsstring) :
  authenticated w user → isAdmin user = true →
  w_fault w (DeletePolls [(col_id, pollId)]) = None →
  run (handleDelete true polls pollId) w =
  mkOutcome
    (λ page, mkAdminPage (filter (λ p, poll_id p ≠ pollId) polls)
               (page_loading page) None (page_alerts page))
    (set_polls w (filter (λ p, ¬ row_matches [(col_id, pollId)] p) (w_polls w)))
    [EvGetUser; EvQuery (DeletePolls [(col_id, pollId)]);
     EvRevalidate (js "/polls")].
Proof.
  unfold authenticated. intros Huser Hadmin Hok.
  assert (run (adminDeletePoll pollId) w =
          mkOutcome (mkResult None)
            (set_polls w
               (filter (λ p, ¬ row_matches [(col_id, pollId)] p) (w_polls w)))
            [EvGetUser; EvQuery (DeletePolls [(col_id, pollId)]);
             EvRevalidate (js "/polls")]) as Hrun.
  { simpl. rewrite Huser. simpl. rewrite Hadmin. simpl.
    unfold backend. by rewrite Hok. }
  unfold handleDelete. simpl negb. cbv iota. rewrite run_bind, Hrun. done.
Qed.

(** X20. [handleDelete] writes back the list of the render it was clicked
    in.  A deletion that runs alone -- the page still shows that list, which
    is the polls table, newest first -- leaves the page in step with the
    table, whatever the dialog's answer, the caller's role and the backend's
    answer, as long as the collaborators' error messages are non-empty (the
    page takes an empty message for success).  Two deletions clicked in the
    same render do not: once both have answered, the page shows again the
    poll the first one deleted, which the table no longer has. *)
Theorem handleDelete_keeps_page_in_sync
    (w : World) (polls : list Poll) (page : AdminPage) (pollId : jsstring)
    (confirmed : bool) :
  auth_error (w_auth w) ≠ Some [] →
  (∀ r, w_fault w r ≠ Some []) →
  polls ≡ₚ w_polls w →
  StronglySorted newest_first polls →
  (page_polls page = polls →
     page_in_sync
       (returned (run (handleDelete confirmed polls pollId) w)
          (handleDelete_begin confirmed pollId page))
       (world_after (run (handleDelete confirmed polls pollId) w)))
  ∧ (∀ user other p,
       authenticated w user → isAdmin user = true → (∀ r, w_fault w r = None) →
       p ∈ polls → poll_id p = pollId → other ≠ pollId →
       p ∈ page_polls
             (returned
                (run (handleDelete true polls other)
                   (world_after (run (handleDelete true polls pollId) w)))
                (returned (run (handleDelete true polls pollId) w)
                   (handleDelete_begin true other
                      (handleDelete_begin true pollId page))))
       ∧ p ∉ w_polls
               (world_after
                  (run (handleDelete true polls other)
                     (world_after (run (handleDelete true polls pollId) w))))).
Proof.
  intros Hauth Hfault Hperm Hsorted. split.
  - intros Hpage. unfold handleDelete, handleDelete_begin, page_in_sync.
    destruct confirmed; simpl negb; cbv iota; [|simpl; by rewrite Hpage].
    rewrite run_bind. run_cases; unfold truthy; simpl;
      try match goal with
        | H : auth_error _ = Some ?e |- _ => destruct e; [done|]
        | H : w_fault w ?r = Some ?e |- _ =>
            destruct e; [by destruct (Hfault r)|]
        end; simpl; try (rewrite Hpage; done).
    split.
    + rewrite Hperm.
      rewrite (list_filter_iff (λ p, poll_id p ≠ pollId)
                 (λ p, ¬ row_matches [(col_id, pollId)] p)); [done|].
      intros p. by rewrite row_matches_id_only.
    + by apply StronglySorted_filter.
  - intros user other p Huser Hadmin Hok Hp Hid Hother.
    pose proof (run_handleDelete_admin w user polls pollId Huser Hadmin (Hok _))
      as Hfirst.
    pose proof (run_handleDelete_admin
                  (set_polls w
                     (filter (λ q, ¬ row_matches [(col_id, pollId)] q) (w_polls w)))
                  user polls other Huser Hadmin (Hok _)) as Hsecond.
    rewrite !Hfirst. cbn [world_after returned]. rewrite !Hsecond.
    cbn [world_after returned page_polls set_polls w_polls]. split.
    + apply list_elem_of_filter. split; [congruence | done].
    + intros Hin. apply list_elem_of_filter in Hin as [_ Hin].
      apply list_elem_of_filter in Hin as [Hno _]. apply Hno.
      by apply row_matches_id_only.
Qed.

Lemma handleDelete_keeps_page_in_sync_witness :
  page_in_sync
    (returned (run (handleDelete true
                      [alices_new_poll; alices_old_poll; bobs_poll] (js "p2"))
                 (signed_in root))
       (handleDelete_begin true (js "p2")
          (mkAdminPage [alices_new_poll; alices_old_poll; bobs_poll] false None [])))
    (world_after (run (handleDelete true
                         [alices_new_poll; alices_old_poll; bobs_poll] (js "p2"))
                    (signed_in root)))
  ∧ page_polls
      (returned
         (run (handleDelete true [alices_new_poll; alices_old_poll; bobs_poll]
                 (js "p1"))
            (world_after
               (run (handleDelete true
                       [alices_new_poll; alices_old_poll; bobs_poll] (js "p2"))
                  (signed_in root))))
         (returned
            (run (handleDelete true [alices_new_poll; alices_old_poll; bobs_poll]
                    (js "p2"))
               (signed_in root))
            (handleDelete_begin true (js "p1")
               (handleDelete_begin true (js "p2")
                  (mkAdminPage [alices_new_poll; alices_old_poll; bobs_poll]
                     false None [])))))
    = [alices_new_poll; alices_old_poll]
  ∧ w_polls
      (world_after
         (run (handleDelete true [alices_new_poll; alices_old_poll; bobs_poll]
                 (js "p1"))
            (world_after
               (run (handleDelete true
                       [alices_new_poll; alices_old_poll; bobs_poll] (js "p2"))
                  (signed_in root)))))
    = [alices_new_poll].
Proof.
  destruct (handleDelete_keeps_page_in_sync (signed_in root)
              [alices_new_poll; alices_old_poll; bobs_poll]
              (mkAdminPage [alices_new_poll; alices_old_poll; bobs_poll] false None [])
              (js "p2") true) as [Halone _].
  - discriminate.
  - intros r. discriminate.
  - exact (reverse_Permutation [bobs_poll; alices_old_poll; alices_new_poll]).
  - apply (bool_decide_unpack _). by vm_compute.
  - split; [by apply Halone|]. split; by vm_compute.
Defined.

(** ** What sanitizing keeps and what it takes *)

(** X21. Whatever the input, the sanitized string holds no tag (after a
    [<] there is no [>] any more) and nothing new: it is the trimmed input
    with some of its code units left out, so it is never longer. *)
Theorem sanitizeString_only_deletes_and_leaves_no_tag (input : jsstring) :
  tag_free (sanitizeString input)
  ∧ sanitizeString input `sublist_of` trim input
  ∧ (length (sanitizeString input) ≤ length (trim input))%nat.
Proof.
  split; [apply sanitizeString_tag_free|].
  split; [|apply sanitizeString_length].
  unfold sanitizeString, replace_all. etrans; apply replace_go_sublist.
Qed.

(** X22. Text without any [<] goes through untouched but for the white
    space trimmed off its two ends. *)
Theorem sanitizeString_keeps_plain_text (input : jsstring) :
  0x3C ∉ input → sanitizeString input = trim input.
Proof. apply sanitizeString_plain_text. Qed.

Lemma sanitizeString_keeps_plain_text_witness :
  sanitizeString (js "  2 > 1, isn't it?  ") = js "2 > 1, isn't it?".
Proof.
  apply (sanitizeString_keeps_plain_text (js "  2 > 1, isn't it?  ")).
  intros Hin. vm_compute in Hin.
  repeat (apply elem_of_cons in Hin as [Hin|Hin]; [discriminate Hin|]).
  by apply elem_of_nil in Hin.
Defined.

(** ** Which message for which fault *)

Lemma option_long_msg_inj (i j : nat) :
  option_long_msg i = option_long_msg j → i = j.
Proof.
  unfold option_long_msg. intros H.
  apply app_inv_head, app_inv_tail, Number_toString_inj in H. lia.
Qed.

Lemma option_errors_elem_of (options : list jsstring) (m : jsstring) :
  m ∈ mjoin (imap option_errors options) ↔
  ∃ i o, options !! i = Some o
         ∧ ((trim o = [] ∧ m = option_empty_msg i)
            ∨ ((200 < length (trim o))%nat ∧ m = option_long_msg i)).
Proof.
  rewrite list_elem_of_join. split.
  - intros (l & Hl & Hin). apply elem_of_lookup_imap in Hin as (i & o & -> & Ho).
    exists i, o. split; [done|]. unfold option_errors in Hl.
    destruct (falsy o || _) eqn:He.
    + apply falsy_trim in He. apply list_elem_of_singleton in Hl. by left.
    + destruct (200 <? _)%nat eqn:Hlen; [|by apply elem_of_nil in Hl].
      apply Nat.ltb_lt in Hlen. apply list_elem_of_singleton in Hl. by right.
  - intros (i & o & Ho & Hcase). exists (option_errors i o).
    split; [|by apply elem_of_lookup_imap_2]. unfold option_errors.
    destruct Hcase as [[Ht ->]|[Hlen ->]].
    + apply falsy_trim in Ht as ->. left.
    + destruct (falsy o || _) eqn:He.
      * apply falsy_trim in He. rewrite He in Hlen. simpl in Hlen. lia.
      * apply Nat.ltb_lt in Hlen as ->. left.
Qed.

Lemma option_errors_head (options : list jsstring) (m : jsstring) :
  m ∈ mjoin (imap option_errors options) → head m = Some 0x4F.
Proof.
  intros (i & o & _ & [[_ ->]|[_ ->]])%option_errors_elem_of; reflexivity.
Qed.

(** X23. Each validation message stands for one fault and is there exactly
    when the fault is: "Question is required" for a missing or blank
    question, "Question must be less than 500 characters" for a trimmed
    question of more than 500 code units (500 itself passes), "At least 2
    options are required" and "Maximum 10 options allowed" for the two count
    faults, and "Option N must be less than 200 characters" for the N-th
    option when its trimmed length is over 200. *)
Theorem validation_messages_name_the_fault
    (question : option jsstring) (options : list jsstring) (i : nat) :
  (js "Question is required" ∈ validatePollInput question options
   ↔ question = None ∨ ∃ q, question = Some q ∧ trim q = [])
  ∧ (js "Question must be less than 500 characters"
       ∈ validatePollInput question options
     ↔ ∃ q, question = Some q ∧ (500 < length (trim q))%nat)
  ∧ (js "At least 2 options are required" ∈ validatePollInput question options
     ↔ (length options < 2)%nat)
  ∧ (js "Maximum 10 options allowed" ∈ validatePollInput question options
     ↔ (10 < length options)%nat)
  ∧ (option_long_msg i ∈ validatePollInput question options
     ↔ ∃ o, options !! i = Some o ∧ (200 < length (trim o))%nat).
Proof.
  unfold validatePollInput.
  assert (∀ m, head m = Some 0x51 →
            (m ∈ question_errors question ++ count_errors options
                 ++ mjoin (imap option_errors options)
             ↔ m ∈ question_errors question)) as Hquestion.
  { intros m Hm. rewrite !elem_of_app. split; [|by left].
    intros [?|[Hc|Ho]]; [done|exfalso..].
    - apply count_errors_head in Hc as [Hc|Hc]; congruence.
    - apply option_errors_head in Ho. congruence. }
  assert (∀ m, head m = Some 0x41 ∨ head m = Some 0x4D →
            (m ∈ question_errors question ++ count_errors options
                 ++ mjoin (imap option_errors options)
             ↔ m ∈ count_errors options)) as Hcount.
  { intros m Hm. rewrite !elem_of_app. split; [|by right; left].
    intros [Hq|[?|Ho]]; [exfalso|done|exfalso].
    - apply question_errors_head in Hq. destruct Hm; congruence.
    - apply option_errors_head in Ho. destruct Hm; congruence. }
  split; [|split; [|split; [|split]]].
  - rewrite Hquestion by done. unfold question_errors.
    destruct question as [q|]; [|split; [by left | intros _; left]].
    destruct (falsy q || _) eqn:He.
    + apply falsy_trim in He. split; [right; eauto | intros _; left].
    + split.
      * destruct (500 <? _)%nat; [|by intros ?%elem_of_nil].
        by intros ?%list_elem_of_singleton.
      * intros [|(? & [= <-] & Ht)]; [done|].
        apply falsy_trim in Ht. congruence.
  - rewrite Hquestion by done. unfold question_errors.
    destruct question as [q|]; [|split; [by intros ?%list_elem_of_singleton
                                        | by intros (? & ? & _)]].
    destruct (falsy q || _) eqn:He.
    + apply falsy_trim in He. split; [by intros ?%list_elem_of_singleton|].
      intros (? & [= <-] & Hlen). rewrite He in Hlen. simpl in Hlen. lia.
    + destruct (500 <? _)%nat eqn:Hlen;
        [apply Nat.ltb_lt in Hlen | apply Nat.ltb_ge in Hlen].
      * split; [eauto | intros _; left].
      * split; [by intros ?%elem_of_nil|]. intros (? & [= <-] & ?). lia.
  - rewrite Hcount by (by left). unfold count_errors.
    destruct (_ <? 2)%nat eqn:H2;
      [apply Nat.ltb_lt in H2 | apply Nat.ltb_ge in H2].
    + split; [done | intros _; left].
    + split; [|lia]. destruct (10 <? _)%nat; [|by intros ?%elem_of_nil].
      by intros ?%list_elem_of_singleton.
  - rewrite Hcount by (by right). unfold count_errors.
    destruct (_ <? 2)%nat eqn:H2;
      [apply Nat.ltb_lt in H2 | apply Nat.ltb_ge in H2].
    + split; [by intros ?%list_elem_of_singleton | lia].
    + destruct (10 <? _)%nat eqn:H10;
        [apply Nat.ltb_lt in H10 | apply Nat.ltb_ge in H10].
      * split; [done | intros _; left].
      * split; [by intros ?%elem_of_nil | lia].
  - rewrite !elem_of_app, option_errors_elem_of. split.
    + intros [Hq|[Hc|(j & o & Ho & [[_ He]|[Hlen He]])]].
      * apply question_errors_head in Hq. discriminate Hq.
      * apply count_errors_head in Hc as [Hc|Hc]; discriminate Hc.
      * by apply option_long_msg_not_empty_msg in He.
      * apply option_long_msg_inj in He as ->. eauto.
    + intros (o & Ho & Hlen). right; right. exists i, o. split; [done|].
      by right.
Qed.

Lemma validation_messages_name_the_fault_witness :
  js "Question must be less than 500 characters"
    ∈ validatePollInput (Some (replicate 501 0x41)) [js "Red"; js "Blue"]
  ∧ validatePollInput (Some (replicate 500 0x41)) [js "Red"; js "Blue"] = [].
Proof.
  destruct (validation_messages_name_the_fault
              (Some (replicate 501 0x41)) [js "Red"; js "Blue"] 0)
    as (_ & Hlong & _).
  split; [|by vm_compute].
  apply Hlong. exists (replicate 501 0x41). split; [reflexivity|].
  vm_compute. lia.
Defined.
